(** * SpsSchool: video progress tracking and certificate issuance

    A shallow embedding of the progress workflow of the [courses] app:
    - [courses/models.py]: [Video], [UserProgress] (with
      [progress_percentage]), [UserCertificate], [Training.total_videos] and
      [Training.get_user_progress];
    - [courses/serializers.py]: [UserProgressUpdateSerializer];
    - [courses/views.py]: [update_video_progress],
      [check_training_completion], [get_client_ip];
    - [core/models.py]: [AuditLog].

    The relational store is a record of tables, each table the list of its
    rows in insertion order, with one primary-key sequence per table.  The
    view code runs in a small state-and-exception monad over that store:
    the store is in autocommit mode, so what a view wrote before an
    exception was raised stays written.

    Python's true division and float product are computed here on exact
    rationals ([Q]); rounding of the float result is outside the model. *)

From Stdlib Require Import ZArith QArith Qminmax List Ascii String Bool Lia.
Import ListNotations.
Local Open Scope Z_scope.

(* ================================================================== *)
(** ** Models (courses/models.py, core/models.py)                      *)
(* ================================================================== *)

(** A [Training] is referred to by its primary key; users likewise. *)

Module Video.
Record t : Type := mk {
  id : Z;
  training : Z;               (* ForeignKey(Training) *)
  duration_seconds : Z;       (* IntegerField(default=0) *)
  is_active : bool            (* BooleanField(default=True) *)
}.
End Video.

Module UserProgress.
Record t : Type := mk {
  id : Z;
  user : Z;                   (* ForeignKey(User) *)
  video : Z;                  (* ForeignKey(Video) *)
  progress_seconds : Z;       (* IntegerField(default=0) *)
  completed : bool;           (* BooleanField(default=False) *)
  last_watched : Z;           (* DateTimeField(auto_now=True) *)
  completed_at : option Z     (* DateTimeField(null=True) *)
}.

(** Python's [min(a, b)]: [b] when [b < a], otherwise [a]. *)
Definition py_min (a b : Q) : Q := if Qle_bool a b then a else b.

(** [progress_percentage]; [the_video] is the row [self.video] refers to.
    The quotient and the product are exact here and rounded to floats in the
    code: signs, order and the clamp at 100 carry over to the code, the
    digits of a value do not, and the point at which 100 is reached carries
    over for durations up to 2^53 only. *)
Definition progress_percentage (the_video : Video.t) (self : t) : Q :=
  if Video.duration_seconds the_video =? 0 then 0%Q
  else py_min ((inject_Z (progress_seconds self)
                / inject_Z (Video.duration_seconds the_video)) * 100)%Q
              100%Q.
End UserProgress.

Module UserCertificate.
Record t : Type := mk {
  id : Z;
  user : Z;                   (* ForeignKey(User) *)
  training : Z;               (* ForeignKey(Training) *)
  certificate_code : Z;       (* CharField(unique=True, default=uuid.uuid4) *)
  issued_at : Z               (* DateTimeField(auto_now_add=True) *)
}.
End UserCertificate.

Module AuditLog.
Inductive action_t : Type := CREATE | UPDATE | DELETE | LOGIN | LOGOUT | VIEW | COMPLETE.

(** The free-text [description] column is left out. *)
Record t : Type := mk {
  user : option Z;            (* ForeignKey(User, null=True) *)
  action : action_t;
  model_name : string;
  object_id : Z;              (* the decimal text of a primary key *)
  ip_address : option string; (* GenericIPAddressField(null=True) *)
  user_agent : string;
  timestamp : Z               (* DateTimeField(auto_now_add=True) *)
}.
End AuditLog.

(* ================================================================== *)
(** ** The store                                                       *)
(* ================================================================== *)

Record World : Type := mkWorld {
  videos : list Video.t;
  user_progress : list UserProgress.t;
  user_progress_seq : Z;                 (* next primary key of user_progress *)
  user_certificates : list UserCertificate.t;
  user_certificates_seq : Z;             (* next primary key of user_certificates *)
  audit_logs : list AuditLog.t;
  uuid_seq : Z;                          (* supply of fresh uuid4 values *)
  clock : Z                              (* what timezone.now() reads *)
}.

Definition set_user_progress (rows : list UserProgress.t) (seq : Z) (w : World) : World :=
  mkWorld (videos w) rows seq (user_certificates w) (user_certificates_seq w)
          (audit_logs w) (uuid_seq w) (clock w).

Definition set_user_certificates (rows : list UserCertificate.t) (seq uuid : Z) (w : World) : World :=
  mkWorld (videos w) (user_progress w) (user_progress_seq w) rows seq
          (audit_logs w) uuid (clock w).

Definition set_audit_logs (rows : list AuditLog.t) (w : World) : World :=
  mkWorld (videos w) (user_progress w) (user_progress_seq w)
          (user_certificates w) (user_certificates_seq w) rows (uuid_seq w) (clock w).

Definition set_clock (t : Z) (w : World) : World :=
  mkWorld (videos w) (user_progress w) (user_progress_seq w)
          (user_certificates w) (user_certificates_seq w) (audit_logs w) (uuid_seq w) t.

(* ================================================================== *)
(** ** The monad of view code                                          *)
(* ================================================================== *)

Inductive Exception : Type := Http404 | DoesNotExist | MultipleObjectsReturned.

Inductive Outcome (A : Type) : Type :=
| Return (a : A)
| Raise (e : Exception).
Arguments Return {A} a.
Arguments Raise {A} e.

Definition M (A : Type) : Type := World -> Outcome A * World.

Definition ret {A} (a : A) : M A := fun w => (Return a, w).

Definition bind {A B} (m : M A) (k : A -> M B) : M B :=
  fun w => match m w with
           | (Return a, w') => k a w'
           | (Raise e, w') => (Raise e, w')
           end.

Definition raise {A} (e : Exception) : M A := fun w => (Raise e, w).

(** [try: m  except e: handler] *)
Definition try_except {A} (m : M A) (e : Exception -> bool) (handler : M A) : M A :=
  fun w => match m w with
           | (Raise x, w') => if e x then handler w' else (Raise x, w')
           | r => r
           end.

Definition gets {A} (f : World -> A) : M A := fun w => (Return (f w), w).
Definition modify (f : World -> World) : M unit := fun w => (Return tt, f w).

Declare Scope view_scope.
Delimit Scope view_scope with view.
Notation "x <- m ;; k" := (bind m (fun x => k))
  (at level 100, m at next level, right associativity) : view_scope.
Notation "m ;; k" := (bind m (fun _ => k))
  (at level 100, right associativity) : view_scope.
Notation "' pat <- m ;; k" := (bind m (fun x => match x with pat => k end))
  (at level 100, pat pattern, m at next level, right associativity) : view_scope.
Local Open Scope view_scope.

Definition is_DoesNotExist (e : Exception) : bool :=
  match e with DoesNotExist => true | _ => false end.

(** [QuerySet.get()]: the one matching row, else [DoesNotExist] or
    [MultipleObjectsReturned]. *)
Definition queryset_get {A} (matching : list A) : M A :=
  match matching with
  | [] => raise DoesNotExist
  | [x] => ret x
  | _ :: _ :: _ => raise MultipleObjectsReturned
  end.

Definition timezone_now : M Z := gets clock.

(* ================================================================== *)
(** ** Queries and managers                                            *)
(* ================================================================== *)

Definition count {A} (l : list A) : Z := Z.of_nat (List.length l).

(** [Video.objects.filter(id=video_id, is_active=True)] *)
Definition active_video_with_id (video_id : Z) (w : World) : list Video.t :=
  filter (fun v => (Video.id v =? video_id) && Video.is_active v) (videos w).

(** [get_object_or_404(Video, id=video_id, is_active=True)] *)
Definition get_object_or_404 (video_id : Z) : M Video.t :=
  try_except (matching <- gets (active_video_with_id video_id) ;; queryset_get matching)
             is_DoesNotExist
             (raise Http404).

(** [UserProgress.objects.filter(user=user, video=video)] *)
Definition progress_of (user video : Z) (w : World) : list UserProgress.t :=
  filter (fun p => (UserProgress.user p =? user) && (UserProgress.video p =? video))
         (user_progress w).

(** [UserProgress.objects.create(user, video, progress_seconds)]: the other
    columns take their defaults, [last_watched] is stamped by [auto_now]. *)
Definition UserProgress_create (user video progress_seconds : Z) : M UserProgress.t :=
  now <- timezone_now ;;
  pk <- gets user_progress_seq ;;
  let obj := UserProgress.mk pk user video progress_seconds false now None in
  modify (fun w => set_user_progress (user_progress w ++ [obj]) (pk + 1) w) ;;
  ret obj.

(** [UserProgress.objects.get_or_create(user=.., video=.., defaults={'progress_seconds': d})] *)
Definition UserProgress_get_or_create (user video default_seconds : Z)
  : M (UserProgress.t * bool) :=
  try_except (matching <- gets (progress_of user video) ;;
              obj <- queryset_get matching ;;
              ret (obj, false))
             is_DoesNotExist
             (obj <- UserProgress_create user video default_seconds ;;
              ret (obj, true)).

(** [Model.save()] of a row that has a primary key: UPDATE by primary key,
    INSERT when no row has it.  [last_watched] is stamped by [auto_now]. *)
Definition UserProgress_save (instance : UserProgress.t) : M UserProgress.t :=
  now <- timezone_now ;;
  let obj := UserProgress.mk (UserProgress.id instance) (UserProgress.user instance)
               (UserProgress.video instance) (UserProgress.progress_seconds instance)
               (UserProgress.completed instance) now (UserProgress.completed_at instance) in
  modify (fun w =>
    if existsb (fun r => UserProgress.id r =? UserProgress.id obj) (user_progress w)
    then set_user_progress
           (map (fun r => if UserProgress.id r =? UserProgress.id obj then obj else r)
                (user_progress w))
           (user_progress_seq w) w
    else set_user_progress (user_progress w ++ [obj]) (user_progress_seq w) w) ;;
  ret obj.

(** [UserCertificate.objects.filter(user=user, training=training)] *)
Definition certificates_of (user training : Z) (w : World) : list UserCertificate.t :=
  filter (fun c => (UserCertificate.user c =? user) && (UserCertificate.training c =? training))
         (user_certificates w).

Definition UserCertificate_create (user training : Z) : M UserCertificate.t :=
  now <- timezone_now ;;
  pk <- gets user_certificates_seq ;;
  code <- gets uuid_seq ;;
  let obj := UserCertificate.mk pk user training code now in
  modify (fun w => set_user_certificates (user_certificates w ++ [obj]) (pk + 1) (code + 1) w) ;;
  ret obj.

(** [UserCertificate.objects.get_or_create(user=user, training=training)] *)
Definition UserCertificate_get_or_create (user training : Z)
  : M (UserCertificate.t * bool) :=
  try_except (matching <- gets (certificates_of user training) ;;
              obj <- queryset_get matching ;;
              ret (obj, false))
             is_DoesNotExist
             (obj <- UserCertificate_create user training ;;
              ret (obj, true)).

(** [AuditLog.objects.create(...)] *)
Definition AuditLog_create (user : option Z) (action : AuditLog.action_t)
    (model_name : string) (object_id : Z) (ip_address : option string)
    (user_agent : string) : M unit :=
  now <- timezone_now ;;
  modify (fun w => set_audit_logs
    (audit_logs w ++ [AuditLog.mk user action model_name object_id ip_address user_agent now]) w).

(* ------------------------------------------------------------------ *)
(** *** Training                                                        *)
(* ------------------------------------------------------------------ *)

Module Training.
(** [self.videos.filter(is_active=True)] *)
Definition active_videos (self : Z) (w : World) : list Video.t :=
  filter (fun v => (Video.training v =? self) && Video.is_active v) (videos w).

(** [total_videos] *)
Definition total_videos (self : Z) (w : World) : Z := count (active_videos self w).

(** The join [video__training=self]: the row's video belongs to [self]. *)
Definition video_in_training (self : Z) (w : World) (p : UserProgress.t) : bool :=
  existsb (fun v => (Video.id v =? UserProgress.video p) && (Video.training v =? self))
          (videos w).

(** [UserProgress.objects.filter(user=user, video__training=self, completed=True)] *)
Definition completed_progress (self user : Z) (w : World) : list UserProgress.t :=
  filter (fun p => (UserProgress.user p =? user) && video_in_training self w p
                   && UserProgress.completed p)
         (user_progress w).

(** [get_user_progress] *)
Definition get_user_progress (self user : Z) (w : World) : Q :=
  let total_videos := total_videos self w in
  if total_videos =? 0 then 0%Q
  else
    let completed_videos := count (completed_progress self user w) in
    ((inject_Z completed_videos / inject_Z total_videos) * 100)%Q.
End Training.

(* ================================================================== *)
(** ** Requests                                                        *)
(* ================================================================== *)

(** A value of the decoded request body.  [JOther] stands for whatever
    neither serializer field coerces: arrays, objects, non-integral numbers,
    text that is neither a numeral nor a truth word.  Text that a field does
    coerce is identified with the value it is coerced to. *)
Inductive json : Type :=
| JNull
| JBool (b : bool)
| JNum (n : Z)
| JOther.

Module Request.
(** [request.data], a JSON object: the two keys the serializer reads
    ([None]: key absent). *)
Record data_t : Type := mkData {
  progress_seconds : option json;
  completed : option json
}.

(** [request.META] *)
Record meta_t : Type := mkMeta {
  HTTP_X_FORWARDED_FOR : option string;
  REMOTE_ADDR : option string;
  HTTP_USER_AGENT : option string
}.

(** A request that has passed the [IsAuthenticated] permission: [user] is
    the authenticated user. *)
Record t : Type := mk {
  user : Z;
  data : data_t;
  META : meta_t
}.
End Request.

(** [s.split(',')[0]] *)
Fixpoint before_comma (s : string) : string :=
  match s with
  | EmptyString => EmptyString
  | String c rest => if Ascii.eqb c ","%char then EmptyString else String c (before_comma rest)
  end.

(** [get_client_ip(request)] *)
Definition get_client_ip (request : Request.t) : option string :=
  match Request.HTTP_X_FORWARDED_FOR (Request.META request) with
  | Some x_forwarded_for =>
      if String.eqb x_forwarded_for EmptyString
      then Request.REMOTE_ADDR (Request.META request)
      else Some (before_comma x_forwarded_for)
  | None => Request.REMOTE_ADDR (Request.META request)
  end.

(** [request.META.get('HTTP_USER_AGENT', '')] *)
Definition get_user_agent (request : Request.t) : string :=
  match Request.HTTP_USER_AGENT (Request.META request) with
  | Some ua => ua
  | None => EmptyString
  end.

(* ================================================================== *)
(** ** UserProgressUpdateSerializer (courses/serializers.py)           *)
(* ================================================================== *)

Module UserProgressUpdateSerializer.

(** The source declares no bound on [progress_seconds]; the only bounds the
    generated field has are the store's [integer_field_range], which depends
    on the backend.  [integer_min] and [integer_max] are the 32-bit signed
    range of the default backends, which every backend admits; a backend
    with a wider range (SQLite) accepts integers beyond it that are refused
    here.  Statements about what is refused keep to values refused on every
    backend, and statements about what is accepted to this range. *)
Definition integer_min : Z := -2147483648.
Definition integer_max : Z := 2147483647.

(** The serializer field generated for [progress_seconds =
    models.IntegerField(default=0)]: an integer within the range; no lower
    bound at zero is declared.  Null and booleans are refused. *)
Definition IntegerField (value : json) : option Z :=
  match value with
  | JNum n => if (integer_min <=? n) && (n <=? integer_max) then Some n else None
  | JNull | JBool _ | JOther => None
  end.

(** The serializer field generated for [completed =
    models.BooleanField(default=False)]: a boolean, or 1 / 0. *)
Definition BooleanField (value : json) : option bool :=
  match value with
  | JBool b => Some b
  | JNum 1 => Some true
  | JNum 0 => Some false
  | JNum _ | JNull | JOther => None
  end.

(** [validated_data] under [partial=True]: a key is present when the
    request carried it. *)
Record validated_data_t : Type := mkValidated {
  progress_seconds : option Z;
  completed : option bool
}.

(** One field under [partial=True]: skipped when absent, else validated. *)
Definition run_field {A} (name : string) (field : json -> option A) (value : option json)
  : option A * list string :=
  match value with
  | None => (None, [])
  | Some v => match field v with
              | Some a => (Some a, [])
              | None => (None, [name])
              end
  end.

(** [serializer.is_valid()] together with what it leaves in
    [serializer.validated_data] (left) or [serializer.errors] (right, the
    names of the offending fields). *)
Definition is_valid (data : Request.data_t) : validated_data_t + list string :=
  let '(seconds, e1) := run_field "progress_seconds" IntegerField (Request.progress_seconds data) in
  let '(done, e2) := run_field "completed" BooleanField (Request.completed data) in
  match e1 ++ e2 with
  | [] => inl (mkValidated seconds done)
  | errors => inr errors
  end.

(** [validated_data.get(key, default)] *)
Definition dict_get {A} (entry : option A) (default : A) : A :=
  match entry with Some a => a | None => default end.

(** [update(self, instance, validated_data)] *)
Definition update (instance : UserProgress.t) (validated_data : validated_data_t)
  : M UserProgress.t :=
  let instance :=
    UserProgress.mk (UserProgress.id instance) (UserProgress.user instance)
      (UserProgress.video instance)
      (dict_get (progress_seconds validated_data) (UserProgress.progress_seconds instance))
      (UserProgress.completed instance) (UserProgress.last_watched instance)
      (UserProgress.completed_at instance) in
  instance <-
    (if dict_get (completed validated_data) false && negb (UserProgress.completed instance)
     then
       now <- timezone_now ;;
       ret (UserProgress.mk (UserProgress.id instance) (UserProgress.user instance)
              (UserProgress.video instance) (UserProgress.progress_seconds instance)
              true (UserProgress.last_watched instance) (Some now))
     else ret instance) ;;
  UserProgress_save instance.

(** [serializer.save()] on a serializer built with an instance. *)
Definition save (instance : UserProgress.t) (validated_data : validated_data_t)
  : M UserProgress.t :=
  update instance validated_data.

End UserProgressUpdateSerializer.

(* ================================================================== *)
(** ** Views (courses/views.py)                                        *)
(* ================================================================== *)

Inductive body_t : Type :=
| ProgressData (progress : UserProgress.t) (progress_percentage : Q)
    (* UserProgressSerializer(progress).data *)
| Errors (fields : list string)      (* serializer.errors *)
| Detail.                            (* the body of an error response *)

Record Response : Type := mkResponse {
  body : body_t;
  status : Z
}.

Definition HTTP_200_OK : Z := 200.
Definition HTTP_400_BAD_REQUEST : Z := 400.
Definition HTTP_404_NOT_FOUND : Z := 404.
Definition HTTP_500_INTERNAL_SERVER_ERROR : Z := 500.

(** [check_training_completion(user, training)] *)
Definition check_training_completion (user training : Z) : M unit :=
  total_videos <- gets (fun w => count (Training.active_videos training w)) ;;
  completed_videos <- gets (fun w => count (Training.completed_progress training user w)) ;;
  if (0 <? total_videos) && (completed_videos =? total_videos)
  then
    '(certificate, created) <- UserCertificate_get_or_create user training ;;
    if (created : bool)
    then AuditLog_create (Some user) AuditLog.CREATE "UserCertificate"
           (UserCertificate.id certificate) (Some "127.0.0.1"%string) "Sistema"
    else ret tt
  else ret tt.

(** [update_video_progress(request, video_id)] *)
Definition update_video_progress (request : Request.t) (video_id : Z) : M Response :=
  video <- get_object_or_404 video_id ;;
  '(progress, created) <-
     UserProgress_get_or_create (Request.user request) (Video.id video) 0 ;;
  match UserProgressUpdateSerializer.is_valid (Request.data request) with
  | inl validated_data =>
      progress <- UserProgressUpdateSerializer.save progress validated_data ;;
      let action := if UserProgress.completed progress
                    then AuditLog.COMPLETE else AuditLog.UPDATE in
      AuditLog_create (Some (Request.user request)) action "UserProgress"
        (UserProgress.id progress) (get_client_ip request) (get_user_agent request) ;;
      (if UserProgress.completed progress
       then check_training_completion (Request.user request) (Video.training video)
       else ret tt) ;;
      ret (mkResponse
             (ProgressData progress (UserProgress.progress_percentage video progress))
             HTTP_200_OK)
  | inr errors => ret (mkResponse (Errors errors) HTTP_400_BAD_REQUEST)
  end.

(** What [@api_view] makes of a view: [Http404] becomes a 404 response, an
    exception nothing handles a 500. *)
Definition api_view (view : M Response) (w : World) : Response * World :=
  match view w with
  | (Return response, w') => (response, w')
  | (Raise Http404, w') => (mkResponse Detail HTTP_404_NOT_FOUND, w')
  | (Raise _, w') => (mkResponse Detail HTTP_500_INTERNAL_SERVER_ERROR, w')
  end.

(** [POST /videos/<video_id>/progress/] *)
Definition post_progress (request : Request.t) (video_id : Z) (w : World)
  : Response * World :=
  api_view (update_video_progress request video_id) w.

(** A call of the endpoint, with the time at which it is served. *)
Record Call : Type := mkCall {
  served_at : Z;
  request : Request.t;
  video_id : Z
}.

Definition serve (c : Call) (w : World) : World :=
  snd (post_progress (request c) (video_id c) (set_clock (served_at c) w)).

(** The store after a sequence of calls, served in order. *)
Fixpoint serve_all (calls : list Call) (w : World) : World :=
  match calls with
  | [] => w
  | c :: rest => serve_all rest (serve c w)
  end.

(* ================================================================== *)
(** ** The view, step by step                                       *)
(* ================================================================== *)

(** The values and stores the operations above compute, named so that
    statements can refer to them. *)

(** The row [get_or_create] inserts when it finds none. *)
Definition new_progress (user video : Z) (w : World) : UserProgress.t :=
  UserProgress.mk (user_progress_seq w) user video 0 false (clock w) None.

(** The store after [UserProgress.objects.create]. *)
Definition insert_progress (p : UserProgress.t) (w : World) : World :=
  set_user_progress (user_progress w ++ [p]) (user_progress_seq w + 1) w.

(** The row [update] hands to [save], as stored. *)
Definition updated_progress (now : Z) (vd : UserProgressUpdateSerializer.validated_data_t)
    (p : UserProgress.t) : UserProgress.t :=
  let seconds := UserProgressUpdateSerializer.dict_get
                   (UserProgressUpdateSerializer.progress_seconds vd)
                   (UserProgress.progress_seconds p) in
  if UserProgressUpdateSerializer.dict_get (UserProgressUpdateSerializer.completed vd) false
     && negb (UserProgress.completed p)
  then UserProgress.mk (UserProgress.id p) (UserProgress.user p) (UserProgress.video p)
         seconds true now (Some now)
  else UserProgress.mk (UserProgress.id p) (UserProgress.user p) (UserProgress.video p)
         seconds (UserProgress.completed p) now (UserProgress.completed_at p).

(** UPDATE of the row with [obj]'s primary key. *)
Definition replace_progress (obj : UserProgress.t) (rows : list UserProgress.t)
  : list UserProgress.t :=
  map (fun r => if UserProgress.id r =? UserProgress.id obj then obj else r) rows.

(** The store after [obj.save()]. *)
Definition store_progress (obj : UserProgress.t) (w : World) : World :=
  if existsb (fun r => UserProgress.id r =? UserProgress.id obj) (user_progress w)
  then set_user_progress (replace_progress obj (user_progress w)) (user_progress_seq w) w
  else set_user_progress (user_progress w ++ [obj]) (user_progress_seq w) w.

(** The store after [AuditLog.objects.create]. *)
Definition log_entry (e : AuditLog.t) (w : World) : World :=
  set_audit_logs (audit_logs w ++ [e]) w.

(** The certificate [get_or_create] inserts when it finds none. *)
Definition new_certificate (user training : Z) (w : World) : UserCertificate.t :=
  UserCertificate.mk (user_certificates_seq w) user training (uuid_seq w) (clock w).

(** The store after a certificate was created and logged. *)
Definition issue_certificate (user training : Z) (w : World) : World :=
  log_entry (AuditLog.mk (Some user) AuditLog.CREATE "UserCertificate"
               (user_certificates_seq w) (Some "127.0.0.1"%string) "Sistema" (clock w))
    (set_user_certificates (user_certificates w ++ [new_certificate user training w])
       (user_certificates_seq w + 1) (uuid_seq w + 1) w).

(** The test of [check_training_completion]. *)
Definition training_completed (user training : Z) (w : World) : bool :=
  (0 <? Training.total_videos training w)
  && (count (Training.completed_progress training user w) =? Training.total_videos training w).

(** The audit entry of a progress update. *)
Definition progress_entry (request : Request.t) (p : UserProgress.t) (w : World) : AuditLog.t :=
  AuditLog.mk (Some (Request.user request))
    (if UserProgress.completed p then AuditLog.COMPLETE else AuditLog.UPDATE)
    "UserProgress" (UserProgress.id p) (get_client_ip request) (get_user_agent request)
    (clock w).

(** The 200 answer: the serialized row with its derived percentage. *)
Definition ok_response (video : Video.t) (p : UserProgress.t) : Response :=
  mkResponse (ProgressData p (UserProgress.progress_percentage video p)) HTTP_200_OK.

(** The rest of [update_video_progress] once the video and the progress row
    are at hand. *)
Definition after_get_or_create (request : Request.t) (video : Video.t)
    (p : UserProgress.t) (w : World) : Outcome Response * World :=
  match UserProgressUpdateSerializer.is_valid (Request.data request) with
  | inr errors => (Return (mkResponse (Errors errors) HTTP_400_BAD_REQUEST), w)
  | inl vd =>
      let p' := updated_progress (clock w) vd p in
      let w' := log_entry (progress_entry request p' w) (store_progress p' w) in
      if UserProgress.completed p'
      then match check_training_completion (Request.user request) (Video.training video) w' with
           | (Return _, w'') => (Return (ok_response video p'), w'')
           | (Raise e, w'') => (Raise e, w'')
           end
      else (Return (ok_response video p'), w')
  end.

(** The store after the view, whatever the view returned or raised. *)
Definition view_world (request : Request.t) (vid : Z) (w : World) : World :=
  snd (update_video_progress request vid w).

(** The store with one more progress row, of the default values
    [get_or_create] inserts, and nothing else changed. *)
Definition with_default_row (u vid : Z) (w : World) : World :=
  set_user_progress
    (user_progress w ++ [UserProgress.mk (user_progress_seq w) u vid 0 false (clock w) None])
    (user_progress_seq w + 1) w.

(** The pair has a certificate. *)
Definition has_certificate (u t : Z) (w : World) : bool :=
  match certificates_of u t w with [] => false | _ :: _ => true end.

(** The completion check invoked [n] times in a row. *)
Fixpoint check_repeatedly (n : nat) (u t : Z) (w : World) : World :=
  match n with
  | O => w
  | S n => check_repeatedly n u t (snd (check_training_completion u t w))
  end.

(* ================================================================== *)
(** ** Constraints of the store                                     *)
(* ================================================================== *)

(** The columns of [unique_together] on [UserProgress] and on
    [UserCertificate]. *)
Definition progress_pair (p : UserProgress.t) : Z * Z :=
  (UserProgress.user p, UserProgress.video p).

Definition certificate_pair (c : UserCertificate.t) : Z * Z :=
  (UserCertificate.user c, UserCertificate.training c).

(** Primary keys are distinct and below their sequence, and the two
    [unique_together] constraints hold. *)
Record consistent (w : World) : Prop := mkConsistent {
  videos_pk : NoDup (map Video.id (videos w));
  progress_pk : NoDup (map UserProgress.id (user_progress w));
  progress_seq_above :
    Forall (fun p => UserProgress.id p < user_progress_seq w) (user_progress w);
  progress_unique_together : NoDup (map progress_pair (user_progress w));
  certificates_unique_together : NoDup (map certificate_pair (user_certificates w))
}.

(** Every row carries a completion stamp exactly when it is completed. *)
Definition stamped (w : World) : Prop :=
  forall p, In p (user_progress w) ->
    (UserProgress.completed p = true <-> UserProgress.completed_at p <> None).

(* ================================================================== *)
(** ** How a call changes a progress row                            *)
(* ================================================================== *)

(** How a call served at [now] may change a progress row: identity and
    pair are kept; the completion columns are kept, or the row goes from
    not completed to completed and is stamped [now]. *)
Definition row_step (now : Z) (p p' : UserProgress.t) : Prop :=
  UserProgress.id p' = UserProgress.id p /\
  progress_pair p' = progress_pair p /\
  ((UserProgress.completed p' = UserProgress.completed p /\
    UserProgress.completed_at p' = UserProgress.completed_at p) \/
   (UserProgress.completed p = false /\ UserProgress.completed p' = true /\
    UserProgress.completed_at p' = Some now)).

(** A row the call created. *)
Definition row_born (now : Z) (p' : UserProgress.t) : Prop :=
  (UserProgress.completed p' = false /\ UserProgress.completed_at p' = None) \/
  (UserProgress.completed p' = true /\ UserProgress.completed_at p' = Some now).

(** The progress table across a call: every old row has its later self,
    every row afterwards is a later self or was created by the call. *)
Definition table_step (now : Z) (rows rows' : list UserProgress.t) : Prop :=
  (forall p, In p rows -> exists p', In p' rows' /\ row_step now p p') /\
  (forall p', In p' rows' -> (exists p, In p rows /\ row_step now p p') \/ row_born now p').

(* ================================================================== *)
(** ** Notions of the specification                                 *)
(* ================================================================== *)

(** [n / d * 100] on the rationals. *)
Definition percent (n d : Z) : Q := (inject_Z n / inject_Z d * 100)%Q.

(** A value that is no integer: refused as [progress_seconds] whatever
    range the store's backend gives the field. *)
Definition not_an_integer (j : json) : bool :=
  match j with
  | JNum _ => false
  | JNull | JBool _ | JOther => true
  end.

(** A value that is no truth value: no boolean, and neither 1 nor 0. *)
Definition not_a_boolean (j : json) : bool :=
  match j with
  | JBool _ => false
  | JNum n => negb ((n =? 0) || (n =? 1))
  | JNull | JOther => true
  end.

(** The keys of a payload that carry a value of the wrong type, in the
    order of the serializer's fields. *)
Definition offending_fields (d : Request.data_t) : list string :=
  match Request.progress_seconds d with
  | Some j => if not_an_integer j then ["progress_seconds"%string] else []
  | None => []
  end ++
  match Request.completed d with
  | Some j => if not_a_boolean j then ["completed"%string] else []
  | None => []
  end.

(** A malformed payload: some key carries a value of the wrong type.  An
    integer sent as [progress_seconds] is within the range every backend
    admits, so that the verdict on the payload is the same on every
    backend. *)
Definition malformed (d : Request.data_t) : Prop :=
  offending_fields d <> [] /\
  forall n, Request.progress_seconds d = Some (JNum n) ->
            UserProgressUpdateSerializer.integer_min <= n
            <= UserProgressUpdateSerializer.integer_max.

(** In the words of the specification: the user has a completed progress
    row for every active video of the training. *)
Definition completed_all_active (u t : Z) (w : World) : bool :=
  forallb (fun v =>
             existsb (fun p => (UserProgress.user p =? u)
                               && (UserProgress.video p =? Video.id v)
                               && UserProgress.completed p)
                     (user_progress w))
          (Training.active_videos t w).

(** None of the user's completed rows in the training sits on a video that
    is not active. *)
Definition completed_on_active_only (u t : Z) (w : World) : Prop :=
  forall p, In p (Training.completed_progress t u w) ->
  exists v, In v (Training.active_videos t w) /\ Video.id v = UserProgress.video p.

(* ================================================================== *)
(** ** Example stores and requests                                  *)
(* ================================================================== *)

(** Training 10 with an active video of 300 s, an active video of no
    length, and a video that has been deactivated. *)
Definition video_a : Video.t := Video.mk 1 10 300 true.
Definition video_b : Video.t := Video.mk 2 10 0 true.
Definition video_off : Video.t := Video.mk 3 10 120 false.

(** A store with the given videos and nothing recorded yet. *)
Definition empty_store (vs : list Video.t) : World := mkWorld vs [] 1 [] 1 [] 1000 0.

Definition school : World := empty_store [video_a; video_b; video_off].

Definition browser : Request.meta_t :=
  Request.mkMeta (Some "10.0.0.7, 10.0.0.1"%string) (Some "10.0.0.1"%string)
                 (Some "Mozilla/5.0"%string).

Definition report (user : Z) (seconds completed : option json) : Request.t :=
  Request.mk user (Request.mkData seconds completed) browser.

(** Training 20 has one video, deactivated, which user 7 had completed. *)
Definition retired : World :=
  mkWorld [Video.mk 4 20 60 false] [UserProgress.mk 1 7 4 60 true 3 (Some 3)] 2 [] 1 [] 1000 9.

(** The row the endpoint stores when user 7 reports -5 seconds on the 300 s
    video of [school]. *)
Definition rewound : UserProgress.t := UserProgress.mk 1 7 1 (-5) false 0 None.

(** Training 30 after its second video was deactivated: user 7 had
    completed both videos. *)
Definition after_deactivation : World :=
  mkWorld [Video.mk 5 30 300 true; Video.mk 6 30 200 false]
          [UserProgress.mk 1 7 5 300 true 3 (Some 3);
           UserProgress.mk 2 7 6 200 true 4 (Some 4)]
          3 [] 1 [] 1000 9.

(** User 7 has completed the 300 s video. *)
Definition graduate : World :=
  mkWorld [video_a; video_b; video_off] [UserProgress.mk 1 7 1 300 true 6 (Some 6)] 2
          [] 1 [] 1000 6.

(** Training 10 has the active videos 1 and 2 and the deactivated video 3;
    user 7 completed video 3 while it was active and nothing else. *)
Definition watched_retired : World :=
  mkWorld [video_a; video_b; video_off] [UserProgress.mk 1 7 3 120 true 2 (Some 2)] 2
          [] 1 [] 1000 4.

(** Training 30 has the active video 5 and the deactivated video 6, which
    user 7 had completed. *)
Definition retired_after_watching : World :=
  mkWorld [Video.mk 5 30 300 true; Video.mk 6 30 200 false]
          [UserProgress.mk 1 7 6 200 true 4 (Some 4)] 2 [] 1 [] 1000 9.

(* ================================================================== *)
(** ** More of the models                                              *)
(* ================================================================== *)

(** [Video.get_user_progress(user)]: the user's row for the video, [None]
    when there is none. *)
Definition Video_get_user_progress (self : Video.t) (user : Z) : M (option UserProgress.t) :=
  try_except (matching <- gets (progress_of user (Video.id self)) ;;
              progress <- queryset_get matching ;;
              ret (Some progress))
             is_DoesNotExist
             (ret None).

(* ================================================================== *)
(** ** Module totals (courses/models.py)                               *)
(* ================================================================== *)

(** A row of the [trainings] table: primary key, [module] foreign key and
    [is_active]; the table is passed beside the store. *)
Record training_row : Type := mkTraining {
  training_id : Z;
  training_module : Z;
  training_is_active : bool
}.

(** [self.trainings.filter(is_active=True)] of a module. *)
Definition active_trainings (self : Z) (trainings : list training_row) : list training_row :=
  filter (fun tr => (training_module tr =? self) && training_is_active tr) trainings.

(** [Module.total_trainings] *)
Definition Module_total_trainings (self : Z) (trainings : list training_row) : Z :=
  count (active_trainings self trainings).

(** Python's [sum] of integers. *)
Definition py_sum (terms : list Z) : Z := fold_left Z.add terms 0.

(** [Module.total_videos] *)
Definition Module_total_videos (self : Z) (trainings : list training_row) (w : World) : Z :=
  py_sum (map (fun training => Training.total_videos (training_id training) w)
              (active_trainings self trainings)).

(** The video is active and belongs to an active training of the module. *)
Definition counted_in_module (self : Z) (trainings : list training_row) (v : Video.t) : bool :=
  Video.is_active v &&
  existsb (fun tr => (training_id tr =? Video.training v)
                     && (training_module tr =? self) && training_is_active tr)
          trainings.

(* ================================================================== *)
(** ** The video page (core/views.py)                                  *)
(* ================================================================== *)

(** [Video.objects.filter(id=video_id)] *)
Definition video_with_id (video_id : Z) (w : World) : list Video.t :=
  filter (fun v => Video.id v =? video_id) (videos w).

(** [video_detail(request, video_id)], as far as it touches the store: the
    video is looked up by id alone, and an authenticated user gets a progress
    row for it.  [user] is [request.user] when authenticated.  The result is
    the [user_progress] entry of the page's context; the rest of the context
    is read from the store and is not modelled. *)
Definition video_detail (user : option Z) (video_id : Z) : M (option UserProgress.t) :=
  video <- try_except (matching <- gets (video_with_id video_id) ;; queryset_get matching)
                      is_DoesNotExist
                      (raise Http404) ;;
  match user with
  | Some u =>
      '(user_progress, created) <- UserProgress_get_or_create u (Video.id video) 0 ;;
      ret (Some user_progress)
  | None => ret None
  end.

(* ================================================================== *)
(** ** Video.youtube_id (courses/models.py)                             *)
(* ================================================================== *)

(** [s.startswith(prefix)] *)
Fixpoint starts_with (prefix s : string) : bool :=
  match prefix, s with
  | EmptyString, _ => true
  | String _ _, EmptyString => false
  | String a prefix', String b s' => Ascii.eqb a b && starts_with prefix' s'
  end.

(** [sub in s] *)
Fixpoint contains (sub s : string) : bool :=
  starts_with sub s ||
  match s with
  | EmptyString => false
  | String _ s' => contains sub s'
  end.

(** [s.split(sep)] for a separator that is not empty, read left to right:
    [skip] counts the characters of a separator just found that are still to
    be passed over. *)
Fixpoint split_from (skip : nat) (sep s : string) : list string :=
  match s with
  | EmptyString => [EmptyString]
  | String c s' =>
      match skip with
      | S k => split_from k sep s'
      | O =>
          if starts_with sep s
          then EmptyString :: split_from (String.length sep - 1) sep s'
          else match split_from 0 sep s' with
               | piece :: pieces => String c piece :: pieces
               | [] => [String c EmptyString]
               end
      end
  end.

Definition split (sep s : string) : list string := split_from 0 sep s.

(** What a property returns: a value ([None] included) or an [IndexError]. *)
Inductive returned (A : Type) : Type :=
| Value (a : A)
| IndexError.
Arguments Value {A} a.
Arguments IndexError {A}.

(** [pieces[i]] *)
Definition item {A} (pieces : list A) (i : nat) : returned A :=
  match nth_error pieces i with
  | Some piece => Value piece
  | None => IndexError
  end.

(** [Video.youtube_id], a function of the row's [youtube_url]. *)
Definition youtube_id (youtube_url : string) : returned (option string) :=
  if contains "youtube.com/watch?v=" youtube_url then
    match item (split "watch?v=" youtube_url) 1 with
    | Value rest => match item (split "&" rest) 0 with
                    | Value id => Value (Some id)
                    | IndexError => IndexError
                    end
    | IndexError => IndexError
    end
  else if contains "youtu.be/" youtube_url then
    match item (split "youtu.be/" youtube_url) 1 with
    | Value rest => match item (split "?" rest) 0 with
                    | Value id => Value (Some id)
                    | IndexError => IndexError
                    end
    | IndexError => IndexError
    end
  else Value None.

(* ================================================================== *)
(** ** Completion and certificates across the store                    *)
(* ================================================================== *)

(** The user has a completed row for the video. *)
Definition completed_pair (u vid : Z) (w : World) : Prop :=
  exists p, In p (user_progress w) /\ UserProgress.user p = u /\
            UserProgress.video p = vid /\ UserProgress.completed p = true.

(** Every completed row sits on a video that is active. *)
Definition completed_rows_on_active (w : World) : Prop :=
  forall p, In p (user_progress w) -> UserProgress.completed p = true ->
  exists v, In v (videos w) /\ Video.id v = UserProgress.video p /\
            Video.is_active v = true.

(** A pair holds a certificate exactly when the training has active videos
    and the user has completed every one of them. *)
Definition certified_exactly (w : World) : Prop :=
  forall u t, has_certificate u t w = true <->
              (0 < Training.total_videos t w /\ completed_all_active u t w = true).

(* ================================================================== *)
(** ** What each operation computes                                    *)
(* ================================================================== *)

Lemma get_object_or_404_run (vid : Z) (w : World) :
  get_object_or_404 vid w =
  match active_video_with_id vid w with
  | [] => (Raise Http404, w)
  | [v] => (Return v, w)
  | _ :: _ :: _ => (Raise MultipleObjectsReturned, w)
  end.
Proof.
  unfold get_object_or_404, try_except, bind, gets.
  destruct (active_video_with_id vid w) as [|v [|v' l]]; reflexivity.
Qed.

Lemma UserProgress_get_or_create_run (u v : Z) (w : World) :
  UserProgress_get_or_create u v 0 w =
  match progress_of u v w with
  | [] => (Return (new_progress u v w, true), insert_progress (new_progress u v w) w)
  | [p] => (Return (p, false), w)
  | _ :: _ :: _ => (Raise MultipleObjectsReturned, w)
  end.
Proof.
  unfold UserProgress_get_or_create, try_except, bind, gets.
  destruct (progress_of u v w) as [|p [|p' l]]; reflexivity.
Qed.

Lemma save_run (p : UserProgress.t) (vd : UserProgressUpdateSerializer.validated_data_t)
    (w : World) :
  UserProgressUpdateSerializer.save p vd w =
  (Return (updated_progress (clock w) vd p), store_progress (updated_progress (clock w) vd p) w).
Proof.
  unfold UserProgressUpdateSerializer.save, UserProgressUpdateSerializer.update,
    updated_progress, store_progress, replace_progress.
  destruct (UserProgressUpdateSerializer.dict_get
              (UserProgressUpdateSerializer.completed vd) false
            && negb (UserProgress.completed p)) eqn:E; cbn in *; rewrite ?E; reflexivity.
Qed.

Lemma AuditLog_create_run user action model object ip agent (w : World) :
  AuditLog_create user action model object ip agent w =
  (Return tt, log_entry (AuditLog.mk user action model object ip agent (clock w)) w).
Proof. reflexivity. Qed.

Lemma check_training_completion_run (u t : Z) (w : World) :
  check_training_completion u t w =
  if training_completed u t w
  then match certificates_of u t w with
       | [] => (Return tt, issue_certificate u t w)
       | [c] => (Return tt, w)
       | _ :: _ :: _ => (Raise MultipleObjectsReturned, w)
       end
  else (Return tt, w).
Proof.
  unfold check_training_completion, training_completed, Training.total_videos, bind, gets.
  destruct ((0 <? count (Training.active_videos t w))
            && (count (Training.completed_progress t u w) =? count (Training.active_videos t w)));
    [|reflexivity].
  unfold UserCertificate_get_or_create, try_except, bind, gets.
  destruct (certificates_of u t w) as [|c [|c' l]]; reflexivity.
Qed.

Lemma update_video_progress_run (request : Request.t) (vid : Z) (w : World) :
  update_video_progress request vid w =
  match active_video_with_id vid w with
  | [] => (Raise Http404, w)
  | [v] =>
      match progress_of (Request.user request) (Video.id v) w with
      | [] => let p := new_progress (Request.user request) (Video.id v) w in
              after_get_or_create request v p (insert_progress p w)
      | [p] => after_get_or_create request v p w
      | _ :: _ :: _ => (Raise MultipleObjectsReturned, w)
      end
  | _ :: _ :: _ => (Raise MultipleObjectsReturned, w)
  end.
Proof.
  unfold update_video_progress.
  unfold bind at 1. rewrite get_object_or_404_run.
  destruct (active_video_with_id vid w) as [|v [|v' l]]; try reflexivity.
  unfold bind at 1. rewrite UserProgress_get_or_create_run.
  assert (K : forall p w1,
    match UserProgressUpdateSerializer.is_valid (Request.data request) with
    | inl validated_data =>
        progress <- UserProgressUpdateSerializer.save p validated_data ;;
        AuditLog_create (Some (Request.user request))
          (if UserProgress.completed progress then AuditLog.COMPLETE else AuditLog.UPDATE)
          "UserProgress" (UserProgress.id progress) (get_client_ip request)
          (get_user_agent request) ;;
        (if UserProgress.completed progress
         then check_training_completion (Request.user request) (Video.training v)
         else ret tt) ;;
        ret (mkResponse
               (ProgressData progress (UserProgress.progress_percentage v progress))
               HTTP_200_OK)
    | inr errors => ret (mkResponse (Errors errors) HTTP_400_BAD_REQUEST)
    end w1 = after_get_or_create request v p w1).
  { intros p w1. unfold after_get_or_create.
    destruct (UserProgressUpdateSerializer.is_valid (Request.data request)) as [vd|errs];
      [|reflexivity].
    unfold bind at 1. rewrite save_run.
    unfold bind at 1. rewrite AuditLog_create_run.
    assert (C : clock (store_progress (updated_progress (clock w1) vd p) w1) = clock w1).
    { unfold store_progress. destruct (existsb _ _); reflexivity. }
    unfold progress_entry. rewrite C.
    unfold bind at 1.
    destruct (UserProgress.completed (updated_progress (clock w1) vd p)).
    - destruct (check_training_completion _ _ _) as [[[]|e] w3]; reflexivity.
    - reflexivity. }
  destruct (progress_of (Request.user request) (Video.id v) w) as [|p [|p' l]];
    try reflexivity; cbv zeta; apply K.
Qed.

(* ================================================================== *)
(** ** Tables with keys                                                *)
(* ================================================================== *)

Section Keys.
Context {A K : Type} (key : A -> K).

(** On a table whose keys are distinct, a row is determined by its key. *)
Lemma key_determines_row (l : list A) (x y : A) :
  NoDup (map key l) -> In x l -> In y l -> key x = key y -> x = y.
Proof.
  induction l as [|a l IH]; simpl; intros ND Hx Hy E; [contradiction|].
  inversion ND as [|? ? Hnot ND']; subst.
  destruct Hx as [->|Hx], Hy as [->|Hy]; auto.
  - exfalso. apply Hnot. rewrite E. now apply in_map.
  - exfalso. apply Hnot. rewrite <- E. now apply in_map.
Qed.

(** A query that pins the key down selects at most one row. *)
Lemma filter_at_most_one (P : A -> bool) (l : list A) :
  (forall x y, P x = true -> P y = true -> key x = key y) ->
  NoDup (map key l) ->
  filter P l = [] \/ exists x, filter P l = [x].
Proof.
  intros HP. induction l as [|a l IH]; simpl; intros ND; [now left|].
  inversion ND as [|? ? Hnot ND']; subst.
  destruct (P a) eqn:Pa; [|now apply IH].
  right. exists a. f_equal.
  destruct (filter P l) as [|b rest] eqn:F; [reflexivity|].
  exfalso. assert (Hb : In b (filter P l)) by (rewrite F; now left).
  apply filter_In in Hb. destruct Hb as [Hb Pb].
  apply Hnot. rewrite (HP a b Pa Pb). now apply in_map.
Qed.

Lemma filter_singleton (P : A -> bool) (l : list A) (x : A) :
  filter P l = [x] -> In x l /\ P x = true.
Proof.
  intros F. apply filter_In. rewrite F. now left.
Qed.

Lemma filter_nil (P : A -> bool) (l : list A) (x : A) :
  filter P l = [] -> In x l -> P x = false.
Proof.
  intros F Hx. destruct (P x) eqn:Px; [|reflexivity].
  assert (H : In x (filter P l)) by (apply filter_In; auto).
  rewrite F in H. contradiction.
Qed.

(** With distinct keys, the row a key-pinning query selects is the one
    matching row known to be in the table. *)
Lemma filter_is_the_row (P : A -> bool) (l : list A) (x : A) :
  (forall x y, P x = true -> P y = true -> key x = key y) ->
  NoDup (map key l) -> In x l -> P x = true -> filter P l = [x].
Proof.
  intros HP ND Hx Px.
  destruct (filter_at_most_one P l HP ND) as [F|[y F]].
  - rewrite (filter_nil P l x F Hx) in Px. discriminate.
  - destruct (filter_singleton P l y F) as [Hy Py].
    rewrite F. f_equal. apply (key_determines_row l); auto.
Qed.
End Keys.

(** Replacing the row with a given primary key, on a table whose primary
    keys are distinct. *)
Lemma replace_progress_other (obj r : UserProgress.t) :
  UserProgress.id r <> UserProgress.id obj ->
  (if UserProgress.id r =? UserProgress.id obj then obj else r) = r.
Proof.
  intros H. destruct (Z.eqb_spec (UserProgress.id r) (UserProgress.id obj)); congruence.
Qed.

Lemma replace_progress_keeps {K} (key : UserProgress.t -> K)
    (p obj : UserProgress.t) (rows : list UserProgress.t) :
  NoDup (map UserProgress.id rows) -> In p rows ->
  UserProgress.id obj = UserProgress.id p -> key obj = key p ->
  map key (replace_progress obj rows) = map key rows.
Proof.
  intros ND Hp Hid Hkey. unfold replace_progress. rewrite map_map.
  apply map_ext_in. intros r Hr.
  destruct (Z.eqb_spec (UserProgress.id r) (UserProgress.id obj)) as [E|E]; [|reflexivity].
  rewrite Hkey. f_equal. symmetry.
  apply (key_determines_row UserProgress.id rows); auto. congruence.
Qed.

Lemma replace_progress_In (p obj : UserProgress.t) (rows : list UserProgress.t) :
  In p rows -> UserProgress.id obj = UserProgress.id p ->
  In obj (replace_progress obj rows).
Proof.
  intros Hp Hid. unfold replace_progress.
  apply in_map_iff. exists p. split; [|assumption].
  rewrite <- Hid, Z.eqb_refl. reflexivity.
Qed.

(** Every row of the table after a replacement is the new row or an
    untouched old one; every old row is still there or was the replaced one. *)
Lemma replace_progress_inv (obj r' : UserProgress.t) (rows : list UserProgress.t) :
  In r' (replace_progress obj rows) ->
  r' = obj \/ (In r' rows /\ UserProgress.id r' <> UserProgress.id obj).
Proof.
  unfold replace_progress. intros H. apply in_map_iff in H. destruct H as [r [E Hr]].
  destruct (Z.eqb_spec (UserProgress.id r) (UserProgress.id obj)); subst; auto.
Qed.

Lemma replace_progress_old (obj r : UserProgress.t) (rows : list UserProgress.t) :
  In r rows -> UserProgress.id r <> UserProgress.id obj ->
  In r (replace_progress obj rows).
Proof.
  intros Hr Hne. unfold replace_progress. apply in_map_iff. exists r. split; [|assumption].
  now apply replace_progress_other.
Qed.

(* ================================================================== *)
(** ** What the store guarantees                                       *)
(* ================================================================== *)

Lemma progress_query_pins_pair (u v : Z) (x y : UserProgress.t) :
  (UserProgress.user x =? u) && (UserProgress.video x =? v) = true ->
  (UserProgress.user y =? u) && (UserProgress.video y =? v) = true ->
  progress_pair x = progress_pair y.
Proof.
  unfold progress_pair. intros Hx Hy.
  apply andb_true_iff in Hx, Hy. destruct Hx as [X1 X2], Hy as [Y1 Y2].
  apply Z.eqb_eq in X1, X2, Y1, Y2. congruence.
Qed.

Lemma certificate_query_pins_pair (u t : Z) (x y : UserCertificate.t) :
  (UserCertificate.user x =? u) && (UserCertificate.training x =? t) = true ->
  (UserCertificate.user y =? u) && (UserCertificate.training y =? t) = true ->
  certificate_pair x = certificate_pair y.
Proof.
  unfold certificate_pair. intros Hx Hy.
  apply andb_true_iff in Hx, Hy. destruct Hx as [X1 X2], Hy as [Y1 Y2].
  apply Z.eqb_eq in X1, X2, Y1, Y2. congruence.
Qed.

Lemma video_query_pins_id (vid : Z) (x y : Video.t) :
  (Video.id x =? vid) && Video.is_active x = true ->
  (Video.id y =? vid) && Video.is_active y = true ->
  Video.id x = Video.id y.
Proof.
  intros Hx Hy. apply andb_true_iff in Hx, Hy. destruct Hx as [X1 _], Hy as [Y1 _].
  apply Z.eqb_eq in X1, Y1. congruence.
Qed.

Lemma progress_of_at_most_one (u v : Z) (w : World) :
  consistent w ->
  progress_of u v w = [] \/ exists p, progress_of u v w = [p].
Proof.
  intros C. unfold progress_of.
  apply (filter_at_most_one progress_pair).
  - apply progress_query_pins_pair.
  - apply (progress_unique_together w C).
Qed.

Lemma certificates_of_at_most_one (u t : Z) (w : World) :
  NoDup (map certificate_pair (user_certificates w)) ->
  certificates_of u t w = [] \/ exists c, certificates_of u t w = [c].
Proof.
  intros ND. unfold certificates_of.
  apply (filter_at_most_one certificate_pair); auto.
  apply certificate_query_pins_pair.
Qed.

Lemma active_video_at_most_one (vid : Z) (w : World) :
  consistent w ->
  active_video_with_id vid w = [] \/ exists v, active_video_with_id vid w = [v].
Proof.
  intros C. unfold active_video_with_id.
  apply (filter_at_most_one Video.id).
  - apply video_query_pins_id.
  - apply (videos_pk w C).
Qed.

Lemma progress_of_row (u v : Z) (w : World) (p : UserProgress.t) :
  progress_of u v w = [p] ->
  In p (user_progress w) /\ UserProgress.user p = u /\ UserProgress.video p = v.
Proof.
  intros F. apply filter_singleton in F. destruct F as [Hin H].
  apply andb_true_iff in H. destruct H as [H1 H2]. apply Z.eqb_eq in H1, H2. auto.
Qed.

Lemma progress_of_absent (u v : Z) (w : World) :
  progress_of u v w = [] -> ~ In (u, v) (map progress_pair (user_progress w)).
Proof.
  intros F H. apply in_map_iff in H. destruct H as [p [E Hp]].
  pose proof (filter_nil _ _ p F Hp) as N. cbv beta in N.
  unfold progress_pair in E. inversion E; subst.
  rewrite !Z.eqb_refl in N. discriminate.
Qed.

(** *** The store stays consistent *)

Lemma consistent_set_clock (t : Z) (w : World) :
  consistent w -> consistent (set_clock t w).
Proof. intros [H1 H2 H3 H4 H5]. constructor; assumption. Qed.

Lemma consistent_log_entry (e : AuditLog.t) (w : World) :
  consistent w -> consistent (log_entry e w).
Proof. intros [H1 H2 H3 H4 H5]. constructor; assumption. Qed.

Lemma consistent_insert_progress (u v : Z) (w : World) :
  consistent w -> progress_of u v w = [] ->
  consistent (insert_progress (new_progress u v w) w).
Proof.
  intros [H1 H2 H3 H4 H5] F. constructor; simpl; auto.
  - rewrite map_app. simpl.
    apply NoDup_app; [assumption|repeat constructor; simpl; tauto|].
    intros x Hx [<-|[]].
    apply in_map_iff in Hx. destruct Hx as [p [E Hp]].
    rewrite Forall_forall in H3. specialize (H3 p Hp). lia.
  - apply Forall_app. split.
    + eapply Forall_impl; [|exact H3]. cbv beta. intros; lia.
    + repeat constructor. simpl. lia.
  - rewrite map_app. simpl.
    apply NoDup_app; [assumption|repeat constructor; simpl; tauto|].
    intros x Hx [<-|[]]. revert Hx. now apply progress_of_absent.
Qed.

Lemma store_progress_rows (p obj : UserProgress.t) (w : World) :
  In p (user_progress w) -> UserProgress.id obj = UserProgress.id p ->
  store_progress obj w =
  set_user_progress (replace_progress obj (user_progress w)) (user_progress_seq w) w.
Proof.
  intros Hp Hid. unfold store_progress.
  replace (existsb _ _) with true; [reflexivity|].
  symmetry. apply existsb_exists. exists p. split; [assumption|].
  rewrite Hid. apply Z.eqb_refl.
Qed.

Lemma consistent_store_progress (p obj : UserProgress.t) (w : World) :
  consistent w -> In p (user_progress w) ->
  UserProgress.id obj = UserProgress.id p ->
  progress_pair obj = progress_pair p ->
  consistent (store_progress obj w).
Proof.
  intros [H1 H2 H3 H4 H5] Hp Hid Hpair.
  rewrite (store_progress_rows p obj w Hp Hid).
  constructor; simpl; auto.
  - rewrite (replace_progress_keeps UserProgress.id p obj); auto.
  - apply Forall_forall. intros r Hr.
    rewrite Forall_forall in H3.
    apply replace_progress_inv in Hr. destruct Hr as [->|[Hr _]]; [|auto].
    rewrite Hid. auto.
  - rewrite (replace_progress_keeps progress_pair p obj); auto.
Qed.

(* ================================================================== *)
(** ** The certificate issuer                                          *)
(* ================================================================== *)

(** The completion check touches the certificate table and the audit log
    only. *)
Lemma check_training_completion_frame (u t : Z) (w : World) :
  let w' := snd (check_training_completion u t w) in
  videos w' = videos w /\ user_progress w' = user_progress w /\
  user_progress_seq w' = user_progress_seq w /\ clock w' = clock w.
Proof.
  rewrite check_training_completion_run.
  destruct (training_completed u t w); [|simpl; auto].
  destruct (certificates_of u t w) as [|c [|c' l]]; simpl; auto.
Qed.

Lemma certificates_of_absent (u t : Z) (w : World) :
  certificates_of u t w = [] ->
  ~ In (u, t) (map certificate_pair (user_certificates w)).
Proof.
  intros F H. apply in_map_iff in H. destruct H as [c [E Hc]].
  pose proof (filter_nil _ _ c F Hc) as N. cbv beta in N.
  unfold certificate_pair in E. inversion E; subst.
  rewrite !Z.eqb_refl in N. discriminate.
Qed.

Lemma check_training_completion_unique (u t : Z) (w : World) :
  NoDup (map certificate_pair (user_certificates w)) ->
  NoDup (map certificate_pair
           (user_certificates (snd (check_training_completion u t w)))).
Proof.
  intros ND. rewrite check_training_completion_run.
  destruct (training_completed u t w); [|assumption].
  destruct (certificates_of u t w) as [|c [|c' l]] eqn:F; simpl; auto.
  rewrite map_app. simpl.
  apply NoDup_app; [assumption|repeat constructor; simpl; tauto|].
  intros x Hx [<-|[]]. revert Hx. now apply certificates_of_absent.
Qed.

Lemma consistent_check_training_completion (u t : Z) (w : World) :
  consistent w -> consistent (snd (check_training_completion u t w)).
Proof.
  intros C.
  pose proof (check_training_completion_unique u t w (certificates_unique_together w C)) as U.
  destruct (check_training_completion_frame u t w) as [F1 [F2 [F3 F4]]].
  destruct C as [H1 H2 H3 H4 H5].
  constructor; rewrite ?F1, ?F2, ?F3; assumption.
Qed.

(** Under the store's guarantees the completion check raises nothing. *)
Lemma check_training_completion_returns (u t : Z) (w : World) :
  NoDup (map certificate_pair (user_certificates w)) ->
  fst (check_training_completion u t w) = Return tt.
Proof.
  intros ND. rewrite check_training_completion_run.
  destruct (training_completed u t w); [|reflexivity].
  destruct (certificates_of_at_most_one u t w ND) as [F|[c F]]; rewrite F; reflexivity.
Qed.

(** The certificates of a pair after the check: one is issued exactly when
    the test passes and none was there. *)
Lemma check_training_completion_certificates (u t : Z) (w : World) :
  NoDup (map certificate_pair (user_certificates w)) ->
  user_certificates (snd (check_training_completion u t w)) =
  if training_completed u t w && negb (has_certificate u t w)
  then user_certificates w ++ [new_certificate u t w]
  else user_certificates w.
Proof.
  intros ND. rewrite check_training_completion_run. unfold has_certificate.
  destruct (training_completed u t w); [|reflexivity].
  destruct (certificates_of_at_most_one u t w ND) as [F|[c F]]; rewrite F; reflexivity.
Qed.

(* ================================================================== *)
(** ** One call of the endpoint, row by row                            *)
(* ================================================================== *)

Lemma row_step_refl (now : Z) (p : UserProgress.t) : row_step now p p.
Proof. unfold row_step. auto. Qed.

Lemma table_step_refl (now : Z) (rows : list UserProgress.t) : table_step now rows rows.
Proof.
  split; intros p Hp; [|left]; exists p; auto using row_step_refl.
Qed.

Lemma updated_progress_step (now : Z) vd (p : UserProgress.t) :
  row_step now p (updated_progress now vd p).
Proof.
  unfold updated_progress, row_step, progress_pair.
  destruct (UserProgressUpdateSerializer.dict_get _ false) eqn:D;
    destruct (UserProgress.completed p) eqn:Cp; simpl; rewrite ?Cp; auto 6.
Qed.

Lemma updated_progress_id (now : Z) vd (p : UserProgress.t) :
  UserProgress.id (updated_progress now vd p) = UserProgress.id p.
Proof. apply (updated_progress_step now vd p). Qed.

Lemma updated_progress_pair (now : Z) vd (p : UserProgress.t) :
  progress_pair (updated_progress now vd p) = progress_pair p.
Proof. apply (updated_progress_step now vd p). Qed.

Lemma replace_table_step (now : Z) (p obj : UserProgress.t) (rows : list UserProgress.t) :
  NoDup (map UserProgress.id rows) -> In p rows -> row_step now p obj ->
  table_step now rows (replace_progress obj rows).
Proof.
  intros ND Hp S. pose proof S as [Hid _]. split.
  - intros r Hr.
    destruct (Z.eq_dec (UserProgress.id r) (UserProgress.id obj)) as [E|E].
    + assert (r = p) by (apply (key_determines_row UserProgress.id rows); auto; congruence).
      subst r. exists obj. split; [|assumption].
      now apply (replace_progress_In p).
    + exists r. split; [now apply replace_progress_old | apply row_step_refl].
  - intros r' Hr'. left. apply replace_progress_inv in Hr'.
    destruct Hr' as [->|[Hr' _]].
    + exists p. auto.
    + exists r'. auto using row_step_refl.
Qed.

(** The rows after the validated (or refused) part of the view. *)
Lemma after_get_or_create_rows (request : Request.t) (v : Video.t)
    (p : UserProgress.t) (w : World) :
  In p (user_progress w) ->
  let w' := snd (after_get_or_create request v p w) in
  videos w' = videos w /\ clock w' = clock w /\
  user_progress_seq w' = user_progress_seq w /\
  user_progress w' =
    match UserProgressUpdateSerializer.is_valid (Request.data request) with
    | inl vd => replace_progress (updated_progress (clock w) vd p) (user_progress w)
    | inr _ => user_progress w
    end.
Proof.
  intros Hp. unfold after_get_or_create.
  destruct (UserProgressUpdateSerializer.is_valid (Request.data request)) as [vd|errs];
    [|simpl; auto].
  cbv zeta.
  set (p' := updated_progress (clock w) vd p).
  assert (Hid : UserProgress.id p' = UserProgress.id p) by apply updated_progress_id.
  rewrite (store_progress_rows p p' w Hp Hid).
  destruct (UserProgress.completed p'); [|simpl; auto].
  match goal with |- context [check_training_completion ?u ?t ?x] =>
    pose proof (check_training_completion_frame u t x) as F;
    destruct (check_training_completion u t x) as [[[]|e] w3] end;
    simpl in *; destruct F as [F1 [F2 [F3 F4]]]; rewrite F1, F2, F3, F4; auto.
Qed.

Lemma consistent_after_get_or_create (request : Request.t) (v : Video.t)
    (p : UserProgress.t) (w : World) :
  consistent w -> In p (user_progress w) ->
  consistent (snd (after_get_or_create request v p w)).
Proof.
  intros C Hp. unfold after_get_or_create.
  destruct (UserProgressUpdateSerializer.is_valid (Request.data request)) as [vd|errs];
    [|assumption].
  cbv zeta.
  set (p' := updated_progress (clock w) vd p).
  assert (C' : consistent (log_entry (progress_entry request p' w) (store_progress p' w))).
  { apply consistent_log_entry. apply (consistent_store_progress p); auto.
    - apply updated_progress_id.
    - apply updated_progress_pair. }
  destruct (UserProgress.completed p'); [|assumption].
  match goal with |- context [check_training_completion ?u ?t ?x] =>
    pose proof (consistent_check_training_completion u t x C') as F;
    destruct (check_training_completion u t x) as [[[]|e] w3] end; exact F.
Qed.

Lemma post_progress_world (request : Request.t) (vid : Z) (w : World) :
  snd (post_progress request vid w) = view_world request vid w.
Proof.
  unfold post_progress, api_view, view_world.
  destruct (update_video_progress request vid w) as [[r|[]] w']; reflexivity.
Qed.

Lemma new_progress_born (u v : Z) (w : World) vd :
  row_born (clock w) (updated_progress (clock w) vd (new_progress u v w)).
Proof.
  unfold row_born, updated_progress, new_progress. simpl.
  destruct (UserProgressUpdateSerializer.dict_get _ false); simpl; auto.
Qed.

(** One call: the store stays consistent, videos are not touched, and the
    progress table moves by [table_step]. *)
Lemma view_world_spec (request : Request.t) (vid : Z) (w : World) :
  consistent w ->
  let w' := view_world request vid w in
  consistent w' /\ videos w' = videos w /\ clock w' = clock w /\
  table_step (clock w) (user_progress w) (user_progress w').
Proof.
  intros C. unfold view_world. rewrite update_video_progress_run.
  destruct (active_video_with_id vid w) as [|v [|v' l]];
    try (simpl; auto using table_step_refl).
  destruct (progress_of (Request.user request) (Video.id v) w) as [|p [|p' l]] eqn:F;
    try (simpl; auto using table_step_refl).
  - (* the row is created *)
    cbv zeta.
    set (u := Request.user request) in *.
    set (p := new_progress u (Video.id v) w).
    set (w1 := insert_progress p w).
    assert (C1 : consistent w1) by (apply consistent_insert_progress; assumption).
    assert (Hp : In p (user_progress w1)) by (simpl; apply in_or_app; right; now left).
    pose proof (consistent_after_get_or_create request v p w1 C1 Hp) as C2.
    destruct (after_get_or_create_rows request v p w1 Hp) as [V [K [_ R]]].
    split; [exact C2|]. split; [rewrite V; reflexivity|].
    split; [rewrite K; reflexivity|].
    rewrite R.
    assert (Fresh : forall r, In r (user_progress w) -> UserProgress.id r <> UserProgress.id p).
    { intros r Hr. pose proof (progress_seq_above w C) as A.
      rewrite Forall_forall in A. specialize (A r Hr). simpl. lia. }
    destruct (UserProgressUpdateSerializer.is_valid (Request.data request)) as [vd|errs].
    + change (clock w1) with (clock w).
      split.
      * intros r Hr. exists r. split; [|apply row_step_refl].
        apply replace_progress_old.
        -- simpl. apply in_or_app. now left.
        -- rewrite updated_progress_id. now apply Fresh.
      * intros r' Hr'. apply replace_progress_inv in Hr'.
        destruct Hr' as [->|[Hr' Hne]].
        -- right. apply new_progress_born.
        -- left. exists r'. split; [|apply row_step_refl].
           simpl in Hr'. apply in_app_or in Hr'. destruct Hr' as [Hr'|[<-|[]]]; [assumption|].
           exfalso. apply Hne. now rewrite updated_progress_id.
    + split.
      * intros r Hr. exists r. split; [|apply row_step_refl].
        simpl. apply in_or_app. now left.
      * intros r' Hr'. simpl in Hr'. apply in_app_or in Hr'.
        destruct Hr' as [Hr'|[<-|[]]].
        -- left. exists r'. auto using row_step_refl.
        -- right. left. split; reflexivity.
  - (* the row is there *)
    destruct (progress_of_row _ _ _ _ F) as [Hp _].
    pose proof (consistent_after_get_or_create request v p w C Hp) as C2.
    destruct (after_get_or_create_rows request v p w Hp) as [V [K [_ R]]].
    split; [exact C2|]. split; [exact V|]. split; [exact K|].
    rewrite R.
    destruct (UserProgressUpdateSerializer.is_valid (Request.data request)) as [vd|errs].
    + apply (replace_table_step (clock w) p).
      * apply (progress_pk w C).
      * exact Hp.
      * apply updated_progress_step.
    + apply table_step_refl.
Qed.

Lemma serve_spec (c : Call) (w : World) :
  consistent w ->
  consistent (serve c w) /\ videos (serve c w) = videos w /\
  table_step (served_at c) (user_progress w) (user_progress (serve c w)).
Proof.
  intros C. unfold serve. rewrite post_progress_world.
  destruct (view_world_spec (request c) (video_id c) (set_clock (served_at c) w)
              (consistent_set_clock _ _ C)) as [C' [V [_ T]]].
  auto.
Qed.

Lemma consistent_serve_all (calls : list Call) (w : World) :
  consistent w -> consistent (serve_all calls w).
Proof.
  revert w. induction calls as [|c rest IH]; intros w C; simpl; [assumption|].
  apply IH. now apply serve_spec.
Qed.

(* ================================================================== *)
(** ** Examples                                                        *)
(* ================================================================== *)

Lemma school_consistent : consistent school.
Proof.
  constructor; simpl; repeat constructor; simpl; intuition discriminate.
Qed.

(** The scenario of the specification: 150 of 300 seconds is 50 percent,
    then 300 seconds and the completed flag give 100 percent and a stamp. *)
Example scenario_half :
  fst (post_progress (report 7 (Some (JNum 150)) (Some (JBool false))) 1 (set_clock 5 school))
  = mkResponse (ProgressData (UserProgress.mk 1 7 1 150 false 5 None) (15000 # 300))
               HTTP_200_OK
  /\ (15000 # 300 == 50)%Q.
Proof. split; reflexivity. Qed.

Example scenario_full :
  user_progress
    (serve_all [mkCall 5 (report 7 (Some (JNum 150)) (Some (JBool false))) 1;
                mkCall 6 (report 7 (Some (JNum 300)) (Some (JBool true))) 1] school)
  = [UserProgress.mk 1 7 1 300 true 6 (Some 6)].
Proof. reflexivity. Qed.

(** Two active videos completed in turn give one certificate; reporting the
    second again leaves it at one. *)
Example scenario_certificate :
  let two := empty_store [video_a; video_b] in
  let calls := [mkCall 5 (report 7 (Some (JNum 300)) (Some (JBool true))) 1;
                mkCall 6 (report 7 (Some (JNum 9)) (Some (JBool true))) 2] in
  user_certificates (serve_all calls two) = [UserCertificate.mk 1 7 10 1000 6] /\
  user_certificates
    (serve_all (calls ++ [mkCall 7 (report 7 (Some (JNum 9)) (Some (JBool true))) 2]) two)
  = [UserCertificate.mk 1 7 10 1000 6].
Proof. split; reflexivity. Qed.

(* ================================================================== *)
(** ** Requests that name no active video                              *)
(* ================================================================== *)

Lemma filter_all_false {A} (P : A -> bool) (l : list A) :
  (forall x, In x l -> P x = false) -> filter P l = [].
Proof.
  induction l as [|a l IH]; simpl; intros H; [reflexivity|].
  rewrite (H a (or_introl eq_refl)). apply IH. intros x Hx. apply H. now right.
Qed.

(** C9: a request whose video id names no video, or names an inactive
    video, is answered 404 and the whole store (progress rows, certificates,
    audit log, sequences) is left exactly as it was. *)
Theorem update_video_progress_not_found (request : Request.t) (vid : Z) (w : World) :
  (forall v, In v (videos w) -> Video.id v = vid -> Video.is_active v = false) ->
  post_progress request vid w = (mkResponse Detail HTTP_404_NOT_FOUND, w).
Proof.
  intros H. unfold post_progress, api_view. rewrite update_video_progress_run.
  replace (active_video_with_id vid w) with (@nil Video.t); [reflexivity|].
  symmetry. apply filter_all_false. intros v Hv.
  destruct (Z.eqb_spec (Video.id v) vid) as [E|E]; [|reflexivity].
  simpl. now apply H.
Qed.

Lemma update_video_progress_not_found_witness :
  (forall v, In v (videos school) -> Video.id v = 3 -> Video.is_active v = false) /\
  post_progress (report 7 (Some (JNum 60)) (Some (JBool true))) 3 school
  = (mkResponse Detail HTTP_404_NOT_FOUND, school).
Proof.
  assert (H : forall v, In v (videos school) -> Video.id v = 3 -> Video.is_active v = false).
  { simpl. intros v [<-|[<-|[<-|[]]]]; simpl; intros E; try discriminate; reflexivity. }
  split; [exact H|].
  apply (update_video_progress_not_found _ 3 school H).
Defined.

(* ================================================================== *)
(** ** Trainings without active videos                                 *)
(* ================================================================== *)

(** C7: on a training with no active video the completion check does
    nothing, whatever progress rows the user has: no certificate is created
    (the store is returned as it was). *)
Theorem check_training_completion_empty_training (u t : Z) (w : World) :
  Training.total_videos t w = 0 ->
  check_training_completion u t w = (Return tt, w).
Proof.
  intros H. rewrite check_training_completion_run.
  unfold training_completed. rewrite H. reflexivity.
Qed.

Lemma check_training_completion_empty_training_witness :
  Training.total_videos 20 retired = 0 /\
  check_training_completion 7 20 retired = (Return tt, retired).
Proof.
  split; [reflexivity|].
  apply (check_training_completion_empty_training 7 20 retired). reflexivity.
Defined.

(* ================================================================== *)
(** ** Percentages                                                     *)
(* ================================================================== *)

Lemma py_min_Qmin (a b : Q) : UserProgress.py_min a b = Qmin a b.
Proof.
  unfold UserProgress.py_min, Qmin, GenericMinMax.gmin, Qle_bool, Qcompare, Z.leb.
  destruct (Z.compare _ _); reflexivity.
Qed.

Lemma percent_nonneg (n d : Z) : 0 < d -> 0 <= n -> (0 <= percent n d)%Q.
Proof.
  intros Hd Hn. unfold percent. destruct d as [|q|q]; try lia.
  unfold Qle, Qdiv, Qmult, Qinv, inject_Z; simpl. lia.
Qed.

Lemma percent_neg (n d : Z) : 0 < d -> n < 0 -> (percent n d < 0)%Q.
Proof.
  intros Hd Hn. unfold percent. destruct d as [|q|q]; try lia.
  unfold Qlt, Qdiv, Qmult, Qinv, inject_Z; simpl. lia.
Qed.

Lemma percent_above_100 (n d : Z) : 0 < d -> ((100 < percent n d)%Q <-> d < n).
Proof.
  intros Hd. unfold percent. destruct d as [|q|q]; try lia.
  unfold Qlt, Qdiv, Qmult, Qinv, inject_Z; simpl. lia.
Qed.

(** C6, as stated, fails: with -5 watched seconds on a 300 s video the
    percentage is -5/3, outside [0, 100]. *)
Lemma progress_percentage_below_zero :
  ~ (0 <= UserProgress.progress_percentage video_a rewound
     /\ UserProgress.progress_percentage video_a rewound <= 100)%Q.
Proof.
  intros [H _]. vm_compute in H. apply H. reflexivity.
Qed.

(** C6, amended: for a video of duration [d >= 0] and a row with [w]
    watched seconds, the percentage is 0 when [d = 0] and
    [min (w / d * 100) 100] when [d > 0], for every [w]; it never exceeds
    100; it is at least 0 when [w >= 0]; and it is negative when [w < 0] and
    [d > 0]. *)
Theorem progress_percentage_clamped (v : Video.t) (p : UserProgress.t) :
  0 <= Video.duration_seconds v ->
  let w := UserProgress.progress_seconds p in
  let d := Video.duration_seconds v in
  let pct := UserProgress.progress_percentage v p in
  (d = 0 -> pct = 0%Q) /\
  (0 < d -> pct = Qmin (inject_Z w / inject_Z d * 100) 100) /\
  (pct <= 100)%Q /\
  (0 <= w -> (0 <= pct)%Q) /\
  (w < 0 -> 0 < d -> (pct < 0)%Q).
Proof.
  intros Hd w d pct. subst pct. unfold UserProgress.progress_percentage.
  fold w d. fold (percent w d). rewrite py_min_Qmin.
  destruct (Z.eqb_spec d 0) as [E|E].
  - repeat split; intros; try lia; try reflexivity; discriminate.
  - assert (Hpos : 0 < d) by (subst d; lia).
    split; [intros; lia|]. split; [reflexivity|].
    split; [apply Q.le_min_r|].
    split.
    + intros Hw. apply Q.min_glb; [now apply percent_nonneg | discriminate].
    + intros Hw _. apply Q.min_lt_iff. left. now apply percent_neg.
Qed.

Lemma progress_percentage_clamped_witness :
  0 <= Video.duration_seconds video_a /\
  (UserProgress.progress_percentage video_a (UserProgress.mk 1 7 1 450 false 5 None) <= 100)%Q.
Proof.
  split; [simpl; lia|].
  apply (progress_percentage_clamped video_a (UserProgress.mk 1 7 1 450 false 5 None)).
  simpl; lia.
Defined.

(** A video without length: the percentage is zero whatever was watched. *)
Example zero_duration_percentage (w : Z) :
  UserProgress.progress_percentage video_b (UserProgress.mk 1 7 2 w false 5 None) = 0%Q.
Proof. reflexivity. Qed.

(* ================================================================== *)
(** ** Training progress and the counts behind it                      *)
(* ================================================================== *)

Lemma total_videos_nonneg (t : Z) (w : World) : 0 <= Training.total_videos t w.
Proof. unfold Training.total_videos, count. lia. Qed.

Lemma has_certificate_issued (u t : Z) (w : World) :
  has_certificate u t (issue_certificate u t w) = true.
Proof.
  unfold has_certificate, certificates_of, issue_certificate. simpl.
  rewrite filter_app. simpl. rewrite !Z.eqb_refl. simpl.
  destruct (filter _ (user_certificates w)); reflexivity.
Qed.

Lemma has_certificate_after_check (u t : Z) (w : World) :
  has_certificate u t (snd (check_training_completion u t w)) =
  has_certificate u t w || training_completed u t w.
Proof.
  rewrite check_training_completion_run.
  destruct (training_completed u t w); [|now rewrite orb_false_r].
  rewrite orb_true_r.
  destruct (certificates_of u t w) as [|c [|c' l]] eqn:F; simpl.
  - apply has_certificate_issued.
  - unfold has_certificate. now rewrite F.
  - unfold has_certificate. now rewrite F.
Qed.

(** C10: the training percentage divides the number of the user's completed
    rows on any video of the training, active or not, by the number of
    active videos; it exceeds 100 exactly when the former exceeds the latter,
    as for a user whose completed video was deactivated (200 percent); and
    the completion check compares these same two counts, so that in that
    state no certificate is issued. *)
Theorem training_progress_counts_inactive_videos :
  (forall t u w p, In p (Training.completed_progress t u w) <->
     In p (user_progress w) /\ UserProgress.user p = u /\
     UserProgress.completed p = true /\
     exists v, In v (videos w) /\ Video.id v = UserProgress.video p /\
               Video.training v = t) /\
  (forall t w v, In v (Training.active_videos t w) <->
     In v (videos w) /\ Video.training v = t /\ Video.is_active v = true) /\
  (forall t u w, Training.get_user_progress t u w =
     if Training.total_videos t w =? 0 then 0%Q
     else percent (count (Training.completed_progress t u w))
                  (Training.total_videos t w)) /\
  (forall t u w, (100 < Training.get_user_progress t u w)%Q <->
     0 < Training.total_videos t w < count (Training.completed_progress t u w)) /\
  (Training.get_user_progress 30 7 after_deactivation == 200)%Q /\
  (forall u t w,
     has_certificate u t (snd (check_training_completion u t w)) =
     has_certificate u t w ||
     ((0 <? Training.total_videos t w) &&
      (count (Training.completed_progress t u w) =? Training.total_videos t w))) /\
  user_certificates (snd (check_training_completion 7 30 after_deactivation)) = [].
Proof.
  split; [|split; [|split; [|split; [|split; [|split]]]]].
  - intros t u w p. unfold Training.completed_progress, Training.video_in_training.
    rewrite filter_In, !andb_true_iff, Z.eqb_eq, existsb_exists.
    split.
    + intros [Hp [[Hu [v [Hv Hm]]] Hc]].
      apply andb_true_iff in Hm. rewrite !Z.eqb_eq in Hm. destruct Hm.
      repeat split; auto. exists v; auto.
    + intros [Hp [Hu [Hc [v [Hv [H1 H2]]]]]].
      repeat split; auto. exists v. split; [assumption|].
      apply andb_true_iff. rewrite !Z.eqb_eq. auto.
  - intros t w v. unfold Training.active_videos.
    rewrite filter_In, andb_true_iff, Z.eqb_eq. tauto.
  - reflexivity.
  - intros t u w. unfold Training.get_user_progress. cbv zeta.
    pose proof (total_videos_nonneg t w) as N.
    destruct (Z.eqb_spec (Training.total_videos t w) 0) as [E|E].
    + rewrite E. split; [intros H; vm_compute in H; discriminate | lia].
    + fold (percent (count (Training.completed_progress t u w)) (Training.total_videos t w)).
      rewrite percent_above_100 by lia. lia.
  - reflexivity.
  - intros u t w. apply has_certificate_after_check.
  - reflexivity.
Qed.

(* ================================================================== *)
(** ** Sequences of calls                                              *)
(* ================================================================== *)

(** Whatever relation between a row and its later self holds trivially and
    survives one [row_step], holds across any sequence of calls. *)
Lemma serve_all_rows (R : UserProgress.t -> UserProgress.t -> Prop) :
  (forall p, R p p) ->
  (forall now p q r, R p q -> row_step now q r -> R p r) ->
  forall calls w p, consistent w -> In p (user_progress w) ->
  exists p', In p' (user_progress (serve_all calls w)) /\ R p p'.
Proof.
  intros Rrefl Rstep calls w p C Hp.
  assert (G : forall q, In q (user_progress w) -> R p q ->
              exists p', In p' (user_progress (serve_all calls w)) /\ R p p');
    [|now apply (G p)].
  clear Hp. revert w C.
  induction calls as [|c rest IH]; intros w C q Hq Rq; simpl.
  - exists q. auto.
  - destruct (serve_spec c w C) as [C' [_ [T _]]].
    destruct (T q Hq) as [r [Hr S]].
    apply (IH (serve c w) C' r Hr). eapply Rstep; eauto.
Qed.

(** The row a query for a pair returns is the row known to carry the pair. *)
Lemma progress_of_the_row (w : World) (p : UserProgress.t) :
  consistent w -> In p (user_progress w) ->
  progress_of (UserProgress.user p) (UserProgress.video p) w = [p].
Proof.
  intros C Hp. unfold progress_of.
  apply (filter_is_the_row progress_pair).
  - apply progress_query_pins_pair.
  - apply (progress_unique_together w C).
  - exact Hp.
  - now rewrite !Z.eqb_refl.
Qed.

(** C4: a progress row that is completed stays completed through every later
    sequence of calls of the endpoint, whatever pairs they address and
    whatever [completed] value they carry: the record the pair has afterwards
    is the same row (same primary key) and its flag is true. *)
Theorem completed_is_one_way (calls : list Call) (w : World) (p : UserProgress.t) :
  consistent w -> In p (user_progress w) -> UserProgress.completed p = true ->
  exists p',
    progress_of (UserProgress.user p) (UserProgress.video p) (serve_all calls w) = [p'] /\
    UserProgress.id p' = UserProgress.id p /\
    UserProgress.completed p' = true.
Proof.
  intros C Hp Done.
  destruct (serve_all_rows
              (fun a b => UserProgress.id b = UserProgress.id a /\
                          progress_pair b = progress_pair a /\
                          (UserProgress.completed a = true -> UserProgress.completed b = true)))
    with (calls := calls) (w := w) (p := p) as [p' [Hp' [Hid [Hpair Hdone]]]]; auto.
  - intros now a b c [I1 [P1 D1]] [I2 [P2 S]].
    split; [congruence|]. split; [congruence|].
    intros Ha. specialize (D1 Ha). destruct S as [[S _]|[_ [S _]]]; congruence.
  - exists p'. split; [|auto].
    unfold progress_pair in Hpair. injection Hpair as Hu Hv.
    rewrite <- Hu, <- Hv.
    apply progress_of_the_row; [now apply consistent_serve_all | assumption].
Qed.

Lemma graduate_consistent : consistent graduate.
Proof.
  constructor; simpl; repeat constructor; simpl; intuition (discriminate || lia).
Qed.

Lemma completed_is_one_way_witness :
  exists p',
    progress_of 7 1
      (serve_all [mkCall 8 (report 7 (Some (JNum 10)) (Some (JBool false))) 1;
                  mkCall 9 (report 7 None (Some (JNum 0))) 1] graduate) = [p'] /\
    UserProgress.id p' = 1 /\
    UserProgress.completed p' = true.
Proof.
  apply (completed_is_one_way
           [mkCall 8 (report 7 (Some (JNum 10)) (Some (JBool false))) 1;
            mkCall 9 (report 7 None (Some (JNum 0))) 1]
           graduate (UserProgress.mk 1 7 1 300 true 6 (Some 6))).
  - exact graduate_consistent.
  - simpl. now left.
  - reflexivity.
Defined.


Lemma stamped_serve (c : Call) (w : World) :
  consistent w -> stamped w -> stamped (serve c w).
Proof.
  intros C St p' Hp'.
  destruct (serve_spec c w C) as [_ [_ [_ T]]].
  destruct (T p' Hp') as [[p [Hp [_ [_ S]]]]|B].
  - specialize (St p Hp). destruct S as [[S1 S2]|[_ [S1 S2]]].
    + rewrite S1, S2. exact St.
    + rewrite S1, S2. split; [discriminate|reflexivity].
  - destruct B as [[B1 B2]|[B1 B2]]; rewrite B1, B2; split; congruence.
Qed.

Lemma stamped_serve_all (calls : list Call) (w : World) :
  consistent w -> stamped w -> stamped (serve_all calls w).
Proof.
  revert w. induction calls as [|c rest IH]; intros w C St; simpl; [assumption|].
  apply IH; [now apply serve_spec | now apply stamped_serve].
Qed.

(** C8: starting from a store where [completed_at] is set exactly on the
    completed rows, after any sequence of calls (1) that is still so;
    (2) a stamp that was set is still the same stamp on the same row;
    (3) a further call leaves each row's flag and stamp as they were, or
    takes the row from not completed and unstamped to completed and stamped
    with the time of that call. *)
Theorem completed_at_set_once (calls : list Call) (w : World) :
  consistent w -> stamped w ->
  stamped (serve_all calls w) /\
  (forall p t, In p (user_progress w) -> UserProgress.completed_at p = Some t ->
     exists p', In p' (user_progress (serve_all calls w)) /\
                UserProgress.id p' = UserProgress.id p /\
                UserProgress.completed_at p' = Some t) /\
  (forall c p, In p (user_progress (serve_all calls w)) ->
     exists p', In p' (user_progress (serve c (serve_all calls w))) /\
                UserProgress.id p' = UserProgress.id p /\
                ((UserProgress.completed p' = UserProgress.completed p /\
                  UserProgress.completed_at p' = UserProgress.completed_at p) \/
                 (UserProgress.completed p = false /\
                  UserProgress.completed_at p = None /\
                  UserProgress.completed p' = true /\
                  UserProgress.completed_at p' = Some (served_at c)))).
Proof.
  intros C St. split; [now apply stamped_serve_all|]. split.
  - intros p t Hp Ht.
    assert (Done : UserProgress.completed p = true)
      by (apply (St p Hp); rewrite Ht; discriminate).
    destruct (serve_all_rows
                (fun a b => UserProgress.id b = UserProgress.id a /\
                            (UserProgress.completed a = true ->
                             UserProgress.completed b = true /\
                             UserProgress.completed_at b = UserProgress.completed_at a)))
      with (calls := calls) (w := w) (p := p) as [p' [Hp' [Hid K]]]; auto.
    + intros now a b r [I1 K1] [I2 [_ S]]. split; [congruence|].
      intros Ha. destruct (K1 Ha) as [Kb Kt].
      destruct S as [[S1 S2]|[S1 _]]; [split; congruence | congruence].
    + exists p'. destruct (K Done) as [_ K2]. repeat split; congruence.
  - intros c p Hp.
    pose proof (consistent_serve_all calls w C) as C'.
    pose proof (stamped_serve_all calls w C St) as St'.
    destruct (serve_spec c _ C') as [_ [_ [T _]]].
    destruct (T p Hp) as [p' [Hp' [Hid [_ S]]]].
    exists p'. split; [assumption|]. split; [assumption|].
    destruct S as [S|[S1 [S2 S3]]]; [now left|right].
    repeat split; auto.
    destruct (UserProgress.completed_at p) eqn:E; [|reflexivity].
    assert (UserProgress.completed p = true) by (apply (St' p Hp); rewrite E; discriminate).
    congruence.
Qed.

Lemma graduate_stamped : stamped graduate.
Proof.
  intros p [<-|[]]. simpl. split; [discriminate|reflexivity].
Qed.

Lemma completed_at_set_once_witness :
  consistent graduate /\ stamped graduate /\
  stamped (serve_all [mkCall 8 (report 7 (Some (JNum 10)) (Some (JBool true))) 1;
                      mkCall 9 (report 7 (Some (JNum 3)) (Some (JBool true))) 2] graduate).
Proof.
  split; [exact graduate_consistent|]. split; [exact graduate_stamped|].
  apply (completed_at_set_once _ graduate graduate_consistent graduate_stamped).
Defined.

(* ================================================================== *)
(** ** Validation of the payload                                       *)
(* ================================================================== *)

Lemma BooleanField_refuses (j : json) :
  UserProgressUpdateSerializer.BooleanField j = None <-> not_a_boolean j = true.
Proof.
  destruct j as [|b|n|]; simpl; try (split; congruence).
  destruct n as [|[p|p|]|p]; simpl; split; congruence.
Qed.

(** On a malformed payload the serializer's errors are the offending
    fields. *)
Lemma malformed_errors (d : Request.data_t) :
  malformed d -> UserProgressUpdateSerializer.is_valid d = inr (offending_fields d).
Proof.
  intros [Bad Range].
  unfold offending_fields in *. unfold UserProgressUpdateSerializer.is_valid,
    UserProgressUpdateSerializer.run_field.
  assert (S : forall j, Request.progress_seconds d = Some j ->
            if not_an_integer j
            then UserProgressUpdateSerializer.IntegerField j = None
            else exists n, UserProgressUpdateSerializer.IntegerField j = Some n).
  { intros j Hj. destruct j as [|b|n|]; simpl; try reflexivity.
    specialize (Range n Hj).
    replace ((UserProgressUpdateSerializer.integer_min <=? n)
             && (n <=? UserProgressUpdateSerializer.integer_max)) with true; [eauto|].
    symmetry. apply andb_true_iff. split; apply Z.leb_le; lia. }
  assert (B : forall j,
            if not_a_boolean j
            then UserProgressUpdateSerializer.BooleanField j = None
            else exists b, UserProgressUpdateSerializer.BooleanField j = Some b).
  { intros j. pose proof (BooleanField_refuses j) as H.
    destruct (not_a_boolean j).
    - now apply H.
    - destruct (UserProgressUpdateSerializer.BooleanField j) as [b|]; [eauto|].
      destruct H as [H _]. specialize (H eq_refl). discriminate. }
  destruct (Request.progress_seconds d) as [j1|].
  - specialize (S j1 eq_refl).
    destruct (not_an_integer j1).
    + rewrite S. destruct (Request.completed d) as [j2|]; [|reflexivity].
      specialize (B j2). destruct (not_a_boolean j2).
      * rewrite B. reflexivity.
      * destruct B as [b ->]. reflexivity.
    + destruct S as [n ->]. destruct (Request.completed d) as [j2|].
      * specialize (B j2). destruct (not_a_boolean j2).
        -- rewrite B. reflexivity.
        -- exfalso. now apply Bad.
      * exfalso. now apply Bad.
  - destruct (Request.completed d) as [j2|].
    + specialize (B j2). destruct (not_a_boolean j2).
      * rewrite B. reflexivity.
      * exfalso. now apply Bad.
    + exfalso. now apply Bad.
Qed.

Lemma active_video_found (vid : Z) (w : World) (v : Video.t) :
  consistent w -> In v (videos w) -> Video.id v = vid -> Video.is_active v = true ->
  active_video_with_id vid w = [v].
Proof.
  intros C Hv Hid Ha. unfold active_video_with_id.
  apply (filter_is_the_row Video.id).
  - apply video_query_pins_id.
  - apply (videos_pk w C).
  - exact Hv.
  - rewrite Ha, andb_true_r. now apply Z.eqb_eq.
Qed.

(** C2, as stated, fails: user 7 has no row for video 1; a payload whose
    [progress_seconds] is of the wrong type is answered 400, and the progress
    table has gained a row. *)
Lemma malformed_payload_creates_record :
  let request := report 7 (Some JOther) (Some (JBool true)) in
  malformed (Request.data request) /\
  status (fst (post_progress request 1 school)) = HTTP_400_BAD_REQUEST /\
  user_progress school = [] /\
  user_progress (snd (post_progress request 1 school))
  = [UserProgress.mk 1 7 1 0 false 0 None].
Proof.
  cbv zeta. split; [split; [discriminate|intros n H; discriminate H]|].
  repeat split; reflexivity.
Qed.

(** C2, amended: a request for an existing active video whose payload
    carries a value of the wrong type under a present key (any integer sent
    as [progress_seconds] being within the range every backend admits) is
    answered 400, and the body names exactly the offending fields.  If the
    user already had a row for the video the store is left exactly as it was;
    if not, the only change is the row of default values (0 seconds, not
    completed, no completion stamp) that [get_or_create] inserted before
    validation.  No row is modified, no certificate or audit entry written. *)
Theorem malformed_payload_rejected (request : Request.t) (vid : Z) (w : World)
    (v : Video.t) :
  consistent w -> In v (videos w) -> Video.id v = vid -> Video.is_active v = true ->
  malformed (Request.data request) ->
  post_progress request vid w =
  (mkResponse (Errors (offending_fields (Request.data request))) HTTP_400_BAD_REQUEST,
   match progress_of (Request.user request) vid w with
   | [] => with_default_row (Request.user request) vid w
   | _ :: _ => w
   end).
Proof.
  intros C Hv Hid Ha Bad.
  pose proof (malformed_errors _ Bad) as E.
  unfold post_progress, api_view. rewrite update_video_progress_run.
  rewrite (active_video_found vid w v C Hv Hid Ha). rewrite Hid.
  destruct (progress_of_at_most_one (Request.user request) vid w C) as [F|[p F]];
    rewrite F; cbv zeta; unfold after_get_or_create; rewrite E; reflexivity.
Qed.

Lemma malformed_payload_rejected_witness :
  post_progress (report 7 (Some (JBool true)) (Some (JNum 2))) 1 graduate =
  (mkResponse (Errors ["progress_seconds"%string; "completed"%string]) HTTP_400_BAD_REQUEST,
   graduate).
Proof.
  apply (malformed_payload_rejected (report 7 (Some (JBool true)) (Some (JNum 2))) 1
           graduate video_a).
  - exact graduate_consistent.
  - simpl. now left.
  - reflexivity.
  - reflexivity.
  - split; [discriminate|intros n H; discriminate H].
Defined.

(* ================================================================== *)
(** ** Accepted reports                                                *)
(* ================================================================== *)

Lemma store_progress_certificates (obj : UserProgress.t) (w : World) :
  user_certificates (store_progress obj w) = user_certificates w.
Proof. unfold store_progress. destruct (existsb _ _); reflexivity. Qed.

Lemma after_get_or_create_response (request : Request.t) (v : Video.t)
    (p : UserProgress.t) (w : World) vd :
  consistent w ->
  UserProgressUpdateSerializer.is_valid (Request.data request) = inl vd ->
  fst (after_get_or_create request v p w)
  = Return (ok_response v (updated_progress (clock w) vd p)).
Proof.
  intros C E. unfold after_get_or_create. rewrite E. cbv zeta.
  destruct (UserProgress.completed (updated_progress (clock w) vd p)); [|reflexivity].
  match goal with |- context [check_training_completion ?u ?t ?x] =>
    assert (R : fst (check_training_completion u t x) = Return tt);
    [|destruct (check_training_completion u t x) as [[[]|e] w3]; simpl in R;
      [reflexivity|discriminate]] end.
  apply check_training_completion_returns. simpl.
  rewrite store_progress_certificates. apply (certificates_unique_together w C).
Qed.

(** A valid report for an existing active video: the answer is 200 with the
    updated row, and that row is the one the pair has afterwards. *)
Lemma post_progress_accepted (request : Request.t) (vid : Z) (w : World)
    (v : Video.t) vd :
  consistent w -> In v (videos w) -> Video.id v = vid -> Video.is_active v = true ->
  UserProgressUpdateSerializer.is_valid (Request.data request) = inl vd ->
  let u := Request.user request in
  let p := match progress_of u vid w with
           | [p] => p
           | _ => new_progress u vid w
           end in
  let p' := updated_progress (clock w) vd p in
  fst (post_progress request vid w) = ok_response v p' /\
  progress_of u vid (snd (post_progress request vid w)) = [p'].
Proof.
  intros C Hv Hid Ha E u p p'.
  assert (G : forall p0 w1, consistent w1 -> In p0 (user_progress w1) ->
            clock w1 = clock w -> progress_pair p0 = (u, vid) ->
            fst (api_view (fun _ => after_get_or_create request v p0 w1) w)
            = ok_response v (updated_progress (clock w) vd p0) /\
            progress_of u vid (snd (api_view (fun _ => after_get_or_create request v p0 w1) w))
            = [updated_progress (clock w) vd p0]).
  { intros p0 w1 C1 Hp0 K Hpair.
    pose proof (after_get_or_create_response request v p0 w1 vd C1 E) as R.
    pose proof (consistent_after_get_or_create request v p0 w1 C1 Hp0) as C2.
    destruct (after_get_or_create_rows request v p0 w1 Hp0) as [_ [_ [_ Rows]]].
    rewrite E, K in Rows. rewrite K in R.
    unfold api_view.
    destruct (after_get_or_create request v p0 w1) as [[r|e] w2]; simpl in *;
      [|discriminate].
    injection R as ->. split; [reflexivity|].
    set (q := updated_progress (clock w) vd p0) in *.
    assert (Hq : In q (user_progress w2)).
    { rewrite Rows. apply (replace_progress_In p0); [assumption|].
      apply updated_progress_id. }
    assert (Pq : progress_pair q = (u, vid)).
    { unfold q. rewrite updated_progress_pair. assumption. }
    unfold progress_pair in Pq. injection Pq as Pu Pv. rewrite <- Pu, <- Pv.
    now apply progress_of_the_row. }
  unfold post_progress.
  assert (Run : update_video_progress request vid w =
                match progress_of u vid w with
                | [] => after_get_or_create request v (new_progress u vid w)
                          (insert_progress (new_progress u vid w) w)
                | [p0] => after_get_or_create request v p0 w
                | _ :: _ :: _ => (Raise MultipleObjectsReturned, w)
                end).
  { rewrite update_video_progress_run.
    rewrite (active_video_found vid w v C Hv Hid Ha). rewrite Hid. reflexivity. }
  unfold api_view in *. rewrite Run. subst p' p.
  destruct (progress_of_at_most_one u vid w C) as [F|[p0 F]]; rewrite F.
  - apply (G (new_progress u vid w) (insert_progress (new_progress u vid w) w)).
    + now apply consistent_insert_progress.
    + simpl. apply in_or_app. right. now left.
    + reflexivity.
    + reflexivity.
  - destruct (progress_of_row u vid w p0 F) as [Hp0 [Hu Hvid]].
    apply (G p0 w); auto. unfold progress_pair. congruence.
Qed.

Lemma videos_serve_all (calls : list Call) (w : World) :
  consistent w -> videos (serve_all calls w) = videos w.
Proof.
  revert w. induction calls as [|c rest IH]; intros w C; simpl; [reflexivity|].
  destruct (serve_spec c w C) as [C' [V _]]. rewrite (IH _ C'). exact V.
Qed.

(** An accepted report adds one row when the pair had none and none when
    it had one. *)
Lemma accepted_row_count (request : Request.t) (vid : Z) (w : World)
    (v : Video.t) vd :
  consistent w -> In v (videos w) -> Video.id v = vid -> Video.is_active v = true ->
  UserProgressUpdateSerializer.is_valid (Request.data request) = inl vd ->
  List.length (user_progress (snd (post_progress request vid w))) =
  match progress_of (Request.user request) vid w with
  | [] => S (List.length (user_progress w))
  | _ :: _ => List.length (user_progress w)
  end.
Proof.
  intros C Hv Hid Ha E.
  rewrite post_progress_world. unfold view_world. rewrite update_video_progress_run.
  rewrite (active_video_found vid w v C Hv Hid Ha), Hid.
  destruct (progress_of_at_most_one (Request.user request) vid w C) as [F|[p F]];
    rewrite F; cbv zeta.
  - set (p := new_progress (Request.user request) vid w).
    assert (Hp : In p (user_progress (insert_progress p w)))
      by (simpl; apply in_or_app; right; now left).
    destruct (after_get_or_create_rows request v p _ Hp) as [_ [_ [_ R]]].
    rewrite R, E. unfold replace_progress. rewrite length_map. simpl.
    rewrite length_app. simpl. lia.
  - destruct (progress_of_row _ _ _ _ F) as [Hp _].
    destruct (after_get_or_create_rows request v p w Hp) as [_ [_ [_ R]]].
    rewrite R, E. unfold replace_progress. now rewrite length_map.
Qed.

(** C5: on a store that satisfies its constraints, no sequence of calls of
    the endpoint leaves more than one progress row for a (user, video)
    pair, and a pair that had a row keeps that very row (same primary key).
    A further accepted report for the pair writes into that row: the pair's
    one row then holds the seconds sent (those stored before, when none were
    sent) and the time of the call; if the pair had a row it is the same row
    and the table has as many rows as before, and if it had none the table
    has exactly one row more. *)
Theorem progress_pair_has_one_record (calls : list Call) (w : World) (u v : Z) :
  consistent w ->
  (List.length (progress_of u v (serve_all calls w)) <= 1)%nat /\
  (forall p, progress_of u v w = [p] ->
     exists p', progress_of u v (serve_all calls w) = [p'] /\
                UserProgress.id p' = UserProgress.id p) /\
  (forall c video vd,
     Request.user (request c) = u -> video_id c = v ->
     In video (videos w) -> Video.id video = v -> Video.is_active video = true ->
     UserProgressUpdateSerializer.is_valid (Request.data (request c)) = inl vd ->
     exists p',
       progress_of u v (serve c (serve_all calls w)) = [p'] /\
       UserProgress.progress_seconds p' =
         match UserProgressUpdateSerializer.progress_seconds vd with
         | Some n => n
         | None => match progress_of u v (serve_all calls w) with
                   | [p] => UserProgress.progress_seconds p
                   | _ => 0
                   end
         end /\
       UserProgress.last_watched p' = served_at c /\
       match progress_of u v (serve_all calls w) with
       | [] => List.length (user_progress (serve c (serve_all calls w)))
               = S (List.length (user_progress (serve_all calls w)))
       | p :: _ => UserProgress.id p' = UserProgress.id p /\
                   List.length (user_progress (serve c (serve_all calls w)))
                   = List.length (user_progress (serve_all calls w))
       end).
Proof.
  intros C.
  pose proof (consistent_serve_all calls w C) as C'.
  split; [|split].
  - destruct (progress_of_at_most_one u v (serve_all calls w) C') as [F|[p F]];
      rewrite F; simpl; lia.
  - intros p F. destruct (progress_of_row u v w p F) as [Hp [Hu Hv]].
    destruct (serve_all_rows
                (fun a b => UserProgress.id b = UserProgress.id a /\
                            progress_pair b = progress_pair a))
      with (calls := calls) (w := w) (p := p) as [p' [Hp' [Hid Hpair]]]; auto.
    + intros now a b c [I1 P1] [I2 [P2 _]]. split; congruence.
    + exists p'. split; [|assumption].
      unfold progress_pair in Hpair. injection Hpair as Hu' Hv'.
      rewrite <- Hu, <- Hv, <- Hu', <- Hv'.
      apply progress_of_the_row; [now apply consistent_serve_all | assumption].
  - intros c video vd Hu Hvid Hin Hid Ha E.
    set (before := serve_all calls w) in *.
    set (wc := set_clock (served_at c) before).
    assert (Cc : consistent wc) by now apply consistent_set_clock.
    assert (Hin' : In video (videos wc))
      by (unfold wc; simpl; unfold before; now rewrite (videos_serve_all calls w C)).
    destruct (post_progress_accepted (request c) v wc video vd Cc Hin' Hid Ha E) as [_ S].
    pose proof (accepted_row_count (request c) v wc video vd Cc Hin' Hid Ha E) as N.
    cbv zeta in S. rewrite Hu in S, N.
    change (progress_of u v wc) with (progress_of u v before) in S, N.
    change (user_progress wc) with (user_progress before) in N.
    change (clock wc) with (served_at c) in S.
    assert (After : serve c before = snd (post_progress (request c) v wc))
      by (unfold serve; now rewrite Hvid).
    rewrite After.
    eexists. split; [exact S|].
    destruct (progress_of_at_most_one u v before C') as [F|[p F]]; rewrite F in *.
    + split; [|split; [|exact N]].
      * unfold updated_progress, UserProgressUpdateSerializer.dict_get.
        destruct (UserProgressUpdateSerializer.progress_seconds vd);
          destruct (_ && _); reflexivity.
      * unfold updated_progress. destruct (_ && _); reflexivity.
    + split; [|split; [|split; [|exact N]]].
      * unfold updated_progress, UserProgressUpdateSerializer.dict_get.
        destruct (UserProgressUpdateSerializer.progress_seconds vd);
          destruct (_ && _); reflexivity.
      * unfold updated_progress. destruct (_ && _); reflexivity.
      * apply updated_progress_id.
Qed.

Lemma progress_pair_has_one_record_witness :
  let calls := [mkCall 5 (report 7 (Some (JNum 150)) (Some (JBool false))) 1;
                mkCall 6 (report 7 (Some (JNum 300)) (Some (JBool true))) 1] in
  let again := mkCall 7 (report 7 (Some (JNum 20)) None) 1 in
  consistent school /\
  (List.length (progress_of 7 1 (serve_all calls school)) <= 1)%nat /\
  exists p',
    progress_of 7 1 (serve again (serve_all calls school)) = [p'] /\
    UserProgress.progress_seconds p' = 20 /\
    UserProgress.last_watched p' = 7 /\
    UserProgress.id p' = 1 /\
    List.length (user_progress (serve again (serve_all calls school))) = 1%nat.
Proof.
  cbv zeta.
  destruct (progress_pair_has_one_record
              [mkCall 5 (report 7 (Some (JNum 150)) (Some (JBool false))) 1;
               mkCall 6 (report 7 (Some (JNum 300)) (Some (JBool true))) 1]
              school 7 1 school_consistent) as [H1 [_ H3]].
  split; [exact school_consistent|]. split; [exact H1|].
  destruct (H3 (mkCall 7 (report 7 (Some (JNum 20)) None) 1) video_a
              (UserProgressUpdateSerializer.mkValidated (Some 20) None))
    as [p' [P1 [P2 [P3 P4]]]]; try reflexivity.
  - simpl. now left.
  - exists p'. split; [exact P1|]. split; [exact P2|]. split; [exact P3|].
    exact P4.
Defined.

(** C3, as stated, fails: a report of -5 seconds on the active video 1 is
    answered 200, not 400, and -5 is what the progress row holds. *)
Lemma negative_seconds_stored :
  let request := report 7 (Some (JNum (-5))) None in
  status (fst (post_progress request 1 school)) = HTTP_200_OK /\
  status (fst (post_progress request 1 school)) <> HTTP_400_BAD_REQUEST /\
  user_progress (snd (post_progress request 1 school))
  = [UserProgress.mk 1 7 1 (-5) false 0 None].
Proof.
  cbv zeta. split; [reflexivity|]. split; [discriminate|reflexivity].
Qed.

(** C3, amended: a report on an existing active video whose
    [progress_seconds] is a negative integer within the integer field's range
    (and whose [completed], if sent, is acceptable) succeeds with 200, and the
    negative value is what the pair's progress row holds afterwards.  Only
    integers outside the range, and non-integers, are refused. *)
Theorem negative_seconds_accepted (request : Request.t) (vid : Z) (w : World)
    (v : Video.t) (n : Z) :
  consistent w -> In v (videos w) -> Video.id v = vid -> Video.is_active v = true ->
  Request.progress_seconds (Request.data request) = Some (JNum n) ->
  UserProgressUpdateSerializer.integer_min <= n < 0 ->
  (forall j, Request.completed (Request.data request) = Some j ->
             UserProgressUpdateSerializer.BooleanField j <> None) ->
  exists p,
    fst (post_progress request vid w)
    = mkResponse (ProgressData p (UserProgress.progress_percentage v p)) HTTP_200_OK /\
    UserProgress.progress_seconds p = n /\
    progress_of (Request.user request) vid (snd (post_progress request vid w)) = [p].
Proof.
  intros C Hv Hid Ha Hs Hn Hc.
  assert (E : exists b, UserProgressUpdateSerializer.is_valid (Request.data request)
                        = inl (UserProgressUpdateSerializer.mkValidated (Some n) b)).
  { unfold UserProgressUpdateSerializer.is_valid, UserProgressUpdateSerializer.run_field.
    rewrite Hs. unfold UserProgressUpdateSerializer.IntegerField.
    replace ((UserProgressUpdateSerializer.integer_min <=? n)
             && (n <=? UserProgressUpdateSerializer.integer_max)) with true.
    - destruct (Request.completed (Request.data request)) as [j|] eqn:Ej.
      + specialize (Hc j eq_refl).
        destruct (UserProgressUpdateSerializer.BooleanField j) as [b|]; [|congruence].
        exists (Some b). reflexivity.
      + exists None. reflexivity.
    - symmetry. apply andb_true_iff. split; apply Z.leb_le;
        unfold UserProgressUpdateSerializer.integer_max; lia. }
  destruct E as [b E].
  destruct (post_progress_accepted request vid w v _ C Hv Hid Ha E) as [R S].
  eexists. split; [exact R|]. split; [|exact S].
  unfold updated_progress. simpl.
  destruct (UserProgressUpdateSerializer.dict_get b false && _); reflexivity.
Qed.

Lemma negative_seconds_accepted_witness :
  exists p,
    fst (post_progress (report 7 (Some (JNum (-5))) None) 1 school)
    = mkResponse (ProgressData p (UserProgress.progress_percentage video_a p)) HTTP_200_OK /\
    UserProgress.progress_seconds p = -5 /\
    progress_of 7 1 (snd (post_progress (report 7 (Some (JNum (-5))) None) 1 school)) = [p].
Proof.
  apply (negative_seconds_accepted (report 7 (Some (JNum (-5))) None) 1 school video_a (-5)).
  - exact school_consistent.
  - simpl. now left.
  - reflexivity.
  - reflexivity.
  - reflexivity.
  - unfold UserProgressUpdateSerializer.integer_min. lia.
  - intros j H. discriminate H.
Defined.

(* ================================================================== *)
(** ** Certificates and completed trainings                            *)
(* ================================================================== *)

Lemma NoDup_map_filter {A K} (key : A -> K) (P : A -> bool) (l : list A) :
  NoDup (map key l) -> NoDup (map key (filter P l)).
Proof.
  induction l as [|a l IH]; simpl; intros ND; [constructor|].
  inversion ND as [|? ? Hnot ND']; subst.
  destruct (P a); simpl; [|auto].
  constructor; [|auto].
  intros H. apply Hnot. apply in_map_iff in H. destruct H as [x [E Hx]].
  apply filter_In in Hx. rewrite <- E. apply in_map. tauto.
Qed.

Lemma NoDup_map_finer {A K K'} (f : A -> K) (g : A -> K') (l : list A) :
  (forall x y, In x l -> In y l -> g x = g y -> f x = f y) ->
  NoDup (map f l) -> NoDup (map g l).
Proof.
  induction l as [|a l IH]; simpl; intros H ND; [constructor|].
  inversion ND as [|? ? Hnot ND']; subst.
  constructor.
  - intros Hin. apply Hnot. apply in_map_iff in Hin. destruct Hin as [x [E Hx]].
    rewrite <- (H x a); auto. now apply in_map.
  - apply IH; auto.
Qed.

Lemma completed_progress_In (t u : Z) (w : World) (p : UserProgress.t) :
  In p (Training.completed_progress t u w) <->
  In p (user_progress w) /\ UserProgress.user p = u /\
  Training.video_in_training t w p = true /\ UserProgress.completed p = true.
Proof.
  unfold Training.completed_progress.
  rewrite filter_In, !andb_true_iff, Z.eqb_eq. tauto.
Qed.

Lemma completed_videos_distinct (t u : Z) (w : World) :
  consistent w ->
  NoDup (map UserProgress.video (Training.completed_progress t u w)).
Proof.
  intros C. apply (NoDup_map_finer progress_pair).
  - intros x y Hx Hy E. apply completed_progress_In in Hx, Hy.
    unfold progress_pair. destruct Hx as [_ [-> _]], Hy as [_ [-> _]]. congruence.
  - unfold Training.completed_progress. apply NoDup_map_filter.
    apply (progress_unique_together w C).
Qed.

Lemma active_videos_distinct (t : Z) (w : World) :
  consistent w -> NoDup (map Video.id (Training.active_videos t w)).
Proof.
  intros C. unfold Training.active_videos. apply NoDup_map_filter.
  apply (videos_pk w C).
Qed.

(** When no completed row sits on an inactive video, the two counts of the
    completion check agree exactly when every active video is completed. *)
Lemma counts_agree_iff_all_completed (u t : Z) (w : World) :
  consistent w -> completed_on_active_only u t w ->
  (count (Training.completed_progress t u w) = Training.total_videos t w
   <-> completed_all_active u t w = true).
Proof.
  intros C Act.
  set (L := map UserProgress.video (Training.completed_progress t u w)).
  set (A := map Video.id (Training.active_videos t w)).
  assert (NL : NoDup L) by now apply completed_videos_distinct.
  assert (NA : NoDup A) by now apply active_videos_distinct.
  assert (LA : incl L A).
  { intros x Hx. apply in_map_iff in Hx. destruct Hx as [p [<- Hp]].
    destruct (Act p Hp) as [v [Hv <-]]. now apply in_map. }
  assert (Len : count (Training.completed_progress t u w) = Training.total_videos t w
                <-> List.length L = List.length A).
  { unfold Training.total_videos, count, L, A. rewrite !length_map. lia. }
  rewrite Len. unfold completed_all_active. rewrite forallb_forall. split.
  - intros E v Hv. apply existsb_exists.
    assert (AL : incl A L) by (apply NoDup_length_incl; auto; lia).
    assert (Hx : In (Video.id v) L) by (apply AL; now apply in_map).
    apply in_map_iff in Hx. destruct Hx as [p [Ep Hp]].
    apply completed_progress_In in Hp. destruct Hp as [Hp [Hu [_ Hc]]].
    exists p. split; [assumption|]. rewrite Hu, Ep, Hc, !Z.eqb_refl. reflexivity.
  - intros H.
    assert (AL : incl A L).
    { intros x Hx. apply in_map_iff in Hx. destruct Hx as [v [<- Hv]].
      specialize (H v Hv). apply existsb_exists in H. destruct H as [p [Hp Hm]].
      rewrite !andb_true_iff, !Z.eqb_eq in Hm. destruct Hm as [[Hu Hvid] Hc].
      rewrite <- Hvid. apply in_map. apply completed_progress_In.
      repeat split; auto.
      unfold Training.video_in_training. apply existsb_exists.
      unfold Training.active_videos in Hv. apply filter_In in Hv.
      destruct Hv as [Hv Hm]. apply andb_true_iff in Hm. destruct Hm as [Ht _].
      exists v. split; [assumption|]. rewrite Ht, andb_true_r. now apply Z.eqb_eq. }
    pose proof (NoDup_incl_length NL LA). pose proof (NoDup_incl_length NA AL). lia.
Qed.

(** What C1 asks for, where it holds: on a training with active videos, for
    a pair without certificate and a user none of whose completed rows sits
    on an inactive video, the completion check leaves a certificate exactly
    when every active video is completed. *)
Lemma certificate_iff_all_completed (u t : Z) (w : World) :
  consistent w -> 0 < Training.total_videos t w ->
  has_certificate u t w = false -> completed_on_active_only u t w ->
  (has_certificate u t (snd (check_training_completion u t w)) = true
   <-> completed_all_active u t w = true).
Proof.
  intros C N No Act.
  rewrite has_certificate_after_check, No. simpl.
  rewrite <- (counts_agree_iff_all_completed u t w C Act).
  unfold training_completed. rewrite andb_true_iff, Z.ltb_lt, Z.eqb_eq. tauto.
Qed.

(** The completion check is idempotent: checking again changes nothing, and
    the pair never has more than one certificate. *)
Lemma check_training_completion_twice (u t : Z) (w : World) :
  snd (check_training_completion u t (snd (check_training_completion u t w)))
  = snd (check_training_completion u t w).
Proof.
  destruct (check_training_completion_frame u t w) as [F1 [F2 _]].
  rewrite (check_training_completion_run u t (snd (check_training_completion u t w))).
  assert (T : training_completed u t (snd (check_training_completion u t w))
              = training_completed u t w).
  { unfold training_completed, Training.total_videos, Training.active_videos,
      Training.completed_progress, Training.video_in_training.
    rewrite F1, F2. reflexivity. }
  rewrite T. destruct (training_completed u t w) eqn:D; [|reflexivity].
  pose proof (has_certificate_after_check u t w) as H.
  rewrite D, orb_true_r in H. unfold has_certificate in H.
  destruct (certificates_of u t (snd (check_training_completion u t w)))
    as [|c [|c' l]]; [discriminate|reflexivity|reflexivity].
Qed.

Lemma check_repeatedly_one_certificate (n : nat) (u t : Z) (w : World) :
  NoDup (map certificate_pair (user_certificates w)) ->
  (List.length (certificates_of u t (check_repeatedly n u t w)) <= 1)%nat.
Proof.
  revert w. induction n as [|n IH]; intros w ND; simpl.
  - destruct (certificates_of_at_most_one u t w ND) as [F|[c F]]; rewrite F; simpl; lia.
  - apply IH. now apply check_training_completion_unique.
Qed.

(** C1 fails on the code, both ways.  In [watched_retired] user 7 completes
    video 1; video 2 is active and has no row, yet the completed row on the
    deactivated video 3 makes the counts agree (2 = 2) and a certificate is
    issued.  In [retired_after_watching] user 7 completes video 5, the only
    active video, yet the counts differ (2 against 1) and no certificate is
    issued. *)
Theorem certificate_counts_inactive_videos :
  (let w := serve (mkCall 5 (report 7 (Some (JNum 300)) (Some (JBool true))) 1)
                  watched_retired in
   completed_all_active 7 10 w = false /\
   progress_of 7 2 w = [] /\
   has_certificate 7 10 watched_retired = false /\
   has_certificate 7 10 w = true) /\
  (let w := serve (mkCall 10 (report 7 (Some (JNum 300)) (Some (JBool true))) 5)
                  retired_after_watching in
   completed_all_active 7 30 w = true /\
   has_certificate 7 30 w = false /\
   has_certificate 7 30 (snd (check_training_completion 7 30 w)) = false).
Proof.
  split; cbv zeta; repeat split; reflexivity.
Qed.

(* ================================================================== *)
(** ** The client address                                              *)
(* ================================================================== *)

Lemma before_comma_split (s : string) :
  exists rest, s = (before_comma s ++ rest)%string /\
               (rest = EmptyString \/ exists r, rest = String ","%char r).
Proof.
  induction s as [|c s IH]; simpl.
  - exists EmptyString. auto.
  - destruct (Ascii.eqb_spec c ","%char) as [->|N].
    + exists (String ","%char s). split; [reflexivity|]. right. now exists s.
    + destruct IH as [rest [E H]]. exists rest. split; [|assumption].
      simpl. now rewrite <- E.
Qed.

Lemma before_comma_no_comma (s : string) :
  ~ In ","%char (list_ascii_of_string (before_comma s)).
Proof.
  induction s as [|c s IH]; simpl; [tauto|].
  destruct (Ascii.eqb_spec c ","%char) as [->|N]; simpl; [tauto|].
  intros [E|H]; [now apply N | now apply IH].
Qed.

(** [get_client_ip]: with a non-empty [X-Forwarded-For] header the address
    is the header's text before its first comma (it holds no comma, and the
    header continues with a comma or ends there); with the header absent or
    empty it is [REMOTE_ADDR], which may itself be absent. *)
Theorem get_client_ip_first_hop (request : Request.t) :
  match Request.HTTP_X_FORWARDED_FOR (Request.META request) with
  | Some (String c h) =>
      exists ip rest,
        get_client_ip request = Some ip /\
        String c h = (ip ++ rest)%string /\
        (rest = EmptyString \/ exists r, rest = String ","%char r) /\
        ~ In ","%char (list_ascii_of_string ip)
  | Some EmptyString | None =>
      get_client_ip request = Request.REMOTE_ADDR (Request.META request)
  end.
Proof.
  unfold get_client_ip.
  destruct (Request.HTTP_X_FORWARDED_FOR (Request.META request)) as [[|c h]|];
    try reflexivity.
  destruct (before_comma_split (String c h)) as [rest [E H]].
  exists (before_comma (String c h)), rest.
  split; [reflexivity|]. split; [exact E|]. split; [exact H|].
  apply before_comma_no_comma.
Qed.

(* ================================================================== *)
(** ** The audit trail                                                 *)
(* ================================================================== *)

(** [check_training_completion] writes to the audit log exactly when it
    creates a certificate: if the test passes and the pair has none, one
    certificate for the pair, stamped now, is appended and one CREATE entry
    naming its primary key, with the system address and agent, is appended to
    the log; otherwise certificates and log are left as they were. *)
Theorem check_training_completion_audit (u t : Z) (w : World) :
  let w' := snd (check_training_completion u t w) in
  if training_completed u t w && negb (has_certificate u t w)
  then exists c,
         user_certificates w' = user_certificates w ++ [c] /\
         UserCertificate.user c = u /\ UserCertificate.training c = t /\
         UserCertificate.issued_at c = clock w /\
         audit_logs w' = audit_logs w ++
           [AuditLog.mk (Some u) AuditLog.CREATE "UserCertificate" (UserCertificate.id c)
              (Some "127.0.0.1"%string) "Sistema" (clock w)]
  else user_certificates w' = user_certificates w /\ audit_logs w' = audit_logs w.
Proof.
  cbv zeta. rewrite check_training_completion_run. unfold has_certificate.
  destruct (training_completed u t w); [|simpl; auto].
  destruct (certificates_of u t w) as [|c [|c' l]]; simpl; auto.
  exists (new_certificate u t w). repeat split; reflexivity.
Qed.

(* ================================================================== *)
(** ** One call of the endpoint, store by store                        *)
(* ================================================================== *)

Lemma after_get_or_create_world (request : Request.t) (v : Video.t)
    (p : UserProgress.t) (w : World) :
  snd (after_get_or_create request v p w) =
  match UserProgressUpdateSerializer.is_valid (Request.data request) with
  | inr _ => w
  | inl vd =>
      let p' := updated_progress (clock w) vd p in
      let w' := log_entry (progress_entry request p' w) (store_progress p' w) in
      if UserProgress.completed p'
      then snd (check_training_completion (Request.user request) (Video.training v) w')
      else w'
  end.
Proof.
  unfold after_get_or_create.
  destruct (UserProgressUpdateSerializer.is_valid (Request.data request)) as [vd|errs];
    [|reflexivity].
  cbv zeta. destruct (UserProgress.completed _); [|reflexivity].
  destruct (check_training_completion _ _ _) as [[[]|e] w3]; reflexivity.
Qed.

Lemma active_video_row (vid : Z) (w : World) (v : Video.t) :
  active_video_with_id vid w = [v] ->
  In v (videos w) /\ Video.id v = vid /\ Video.is_active v = true.
Proof.
  intros F. apply filter_singleton in F. destruct F as [Hv H].
  apply andb_true_iff in H. destruct H as [H1 H2]. apply Z.eqb_eq in H1. auto.
Qed.

(** The store after the view: untouched when no active video has the id;
    otherwise what the validated part makes of the store in which the
    caller's row for the video is at hand (found, or just inserted). *)
Lemma view_world_cases (request : Request.t) (vid : Z) (w : World) :
  consistent w ->
  view_world request vid w = w \/
  exists v p0 w1,
    In v (videos w) /\ Video.id v = vid /\ Video.is_active v = true /\
    ((progress_of (Request.user request) vid w = [p0] /\ w1 = w) \/
     (progress_of (Request.user request) vid w = [] /\
      p0 = new_progress (Request.user request) vid w /\ w1 = insert_progress p0 w)) /\
    consistent w1 /\ In p0 (user_progress w1) /\
    progress_pair p0 = (Request.user request, vid) /\
    view_world request vid w = snd (after_get_or_create request v p0 w1).
Proof.
  intros C. unfold view_world. rewrite update_video_progress_run.
  destruct (active_video_at_most_one vid w C) as [F|[v F]]; rewrite F; [now left|].
  destruct (active_video_row vid w v F) as [Hv [Hid Ha]].
  rewrite Hid.
  destruct (progress_of_at_most_one (Request.user request) vid w C) as [G|[p0 G]];
    rewrite G; right.
  - exists v, (new_progress (Request.user request) vid w),
      (insert_progress (new_progress (Request.user request) vid w) w).
    split; [assumption|]. split; [assumption|]. split; [assumption|].
    split; [right; auto|].
    split; [now apply consistent_insert_progress|].
    split; [simpl; apply in_or_app; right; now left|].
    split; reflexivity.
  - destruct (progress_of_row _ _ _ _ G) as [Hp [Hu Hvid]].
    exists v, p0, w.
    split; [assumption|]. split; [assumption|]. split; [assumption|].
    split; [left; auto|].
    split; [assumption|]. split; [assumption|].
    split; [unfold progress_pair; congruence|reflexivity].
Qed.

Lemma store_progress_audit (obj : UserProgress.t) (w : World) :
  audit_logs (store_progress obj w) = audit_logs w.
Proof. unfold store_progress. destruct (existsb _ _); reflexivity. Qed.

Lemma store_progress_clock (obj : UserProgress.t) (w : World) :
  clock (store_progress obj w) = clock w.
Proof. unfold store_progress. destruct (existsb _ _); reflexivity. Qed.

Lemma check_training_completion_log (u t : Z) (w : World) :
  audit_logs (snd (check_training_completion u t w)) = audit_logs w \/
  exists e, audit_logs (snd (check_training_completion u t w)) = audit_logs w ++ [e] /\
            AuditLog.action e = AuditLog.CREATE /\
            AuditLog.model_name e = "UserCertificate"%string.
Proof.
  rewrite check_training_completion_run.
  destruct (training_completed u t w); [|now left].
  destruct (certificates_of u t w) as [|c [|c' l]]; [|now left|now left].
  right. eexists. split; [reflexivity|]. split; reflexivity.
Qed.

(** The log after one call of the endpoint.  On a consistent store: an
    answer other than 200 leaves the log as it was; a 200 answer appends one
    [UserProgress] entry for the caller and the answered row, with action
    COMPLETE when that row is completed (whether or not this call completed
    it) and UPDATE otherwise, followed by at most one entry, the CREATE of a
    certificate, and that only when the row is completed.  Nothing already in
    the log is changed or removed. *)
Theorem post_progress_audit (request : Request.t) (vid : Z) (w : World) :
  consistent w ->
  let response := fst (post_progress request vid w) in
  let w' := snd (post_progress request vid w) in
  match body response with
  | ProgressData p _ =>
      status response = HTTP_200_OK /\
      exists rest,
        audit_logs w' = audit_logs w ++
          AuditLog.mk (Some (Request.user request))
            (if UserProgress.completed p then AuditLog.COMPLETE else AuditLog.UPDATE)
            "UserProgress" (UserProgress.id p) (get_client_ip request)
            (get_user_agent request) (clock w) :: rest /\
        (rest = [] \/
         UserProgress.completed p = true /\
         exists e, rest = [e] /\ AuditLog.action e = AuditLog.CREATE /\
                   AuditLog.model_name e = "UserCertificate"%string)
  | Errors _ | Detail =>
      status response <> HTTP_200_OK /\ audit_logs w' = audit_logs w
  end.
Proof.
  intros C. cbv zeta.
  pattern (post_progress request vid w).
  match goal with |- ?P _ => set (Q := P) end.
  assert (K : forall v p0 w1, consistent w1 -> clock w1 = clock w ->
              audit_logs w1 = audit_logs w ->
              Q (api_view (fun _ => after_get_or_create request v p0 w1) w)).
  { intros v p0 w1 C1 K1 A1. unfold Q, api_view.
    destruct (UserProgressUpdateSerializer.is_valid (Request.data request)) as [vd|errs] eqn:E.
    - pose proof (after_get_or_create_response request v p0 w1 vd C1 E) as R.
      pose proof (after_get_or_create_world request v p0 w1) as W.
      rewrite E in W. cbv zeta in W.
      destruct (after_get_or_create request v p0 w1) as [o w2]. simpl in R, W. subst o w2.
      simpl. split; [reflexivity|].
      set (p' := updated_progress (clock w1) vd p0).
      destruct (UserProgress.completed p') eqn:D.
      + destruct (check_training_completion_log (Request.user request) (Video.training v)
                    (log_entry (progress_entry request p' w1) (store_progress p' w1)))
          as [Au|[e [Au [Ae Am]]]]; rewrite Au; simpl; unfold progress_entry;
          rewrite store_progress_audit, A1, K1, D.
        * exists []. split; [reflexivity|]. now left.
        * rewrite <- app_assoc. simpl. exists [e]. split; [reflexivity|].
          right. split; [reflexivity|]. exists e. auto.
      + simpl. unfold progress_entry. rewrite store_progress_audit, A1, K1, D.
        exists []. split; [reflexivity|]. now left.
    - unfold after_get_or_create. rewrite E. simpl. split; [discriminate|assumption]. }
  unfold post_progress.
  assert (Run : api_view (update_video_progress request vid) w =
                match active_video_with_id vid w with
                | [] => (mkResponse Detail HTTP_404_NOT_FOUND, w)
                | [v] =>
                    match progress_of (Request.user request) (Video.id v) w with
                    | [] => api_view (fun _ => after_get_or_create request v
                                       (new_progress (Request.user request) (Video.id v) w)
                                       (insert_progress
                                          (new_progress (Request.user request) (Video.id v) w) w)) w
                    | [p] => api_view (fun _ => after_get_or_create request v p w) w
                    | _ :: _ :: _ => (mkResponse Detail HTTP_500_INTERNAL_SERVER_ERROR, w)
                    end
                | _ :: _ :: _ => (mkResponse Detail HTTP_500_INTERNAL_SERVER_ERROR, w)
                end).
  { unfold api_view. rewrite update_video_progress_run.
    destruct (active_video_with_id vid w) as [|v [|v' l]]; try reflexivity.
    destruct (progress_of (Request.user request) (Video.id v) w) as [|p [|p' l]];
      reflexivity. }
  rewrite Run.
  destruct (active_video_at_most_one vid w C) as [F|[v F]]; rewrite F;
    [unfold Q; simpl; split; [discriminate|reflexivity]|].
  destruct (progress_of_at_most_one (Request.user request) (Video.id v) w C) as [G|[p0 G]];
    rewrite G.
  - apply K; [|reflexivity|reflexivity].
    apply consistent_insert_progress; assumption.
  - apply K; auto.
Qed.

Lemma post_progress_audit_witness :
  exists rest,
    audit_logs (snd (post_progress (report 7 (Some (JNum 10)) (Some (JBool false))) 1 graduate))
    = audit_logs graduate ++
        AuditLog.mk (Some 7) AuditLog.COMPLETE "UserProgress" 1 (Some "10.0.0.7"%string)
          "Mozilla/5.0" 6 :: rest /\
    (rest = [] \/
     True /\ exists e, rest = [e] /\ AuditLog.action e = AuditLog.CREATE /\
                       AuditLog.model_name e = "UserCertificate"%string).
Proof.
  pose proof (post_progress_audit (report 7 (Some (JNum 10)) (Some (JBool false))) 1
                graduate graduate_consistent) as H.
  cbv zeta in H. destruct H as [_ [rest [H1 H2]]].
  exists rest. split; [exact H1|].
  destruct H2 as [H2|[_ H2]]; [now left|right; split; [exact I|exact H2]].
Defined.

(* ================================================================== *)
(** ** What an accepted report writes                                  *)
(* ================================================================== *)

(** An accepted report is a partial update of the caller's row for the
    video (the row found, or the default row just inserted): the row keeps
    its primary key; [progress_seconds] becomes the value sent, whatever was
    stored (last write wins), and is kept when the key was not sent;
    [completed] becomes the old flag or the flag sent; [completed_at] is
    stamped only by the transition; [last_watched] is the time of the call. *)
Theorem accepted_report_is_partial_update (request : Request.t) (vid : Z) (w : World)
    (v : Video.t) (vd : UserProgressUpdateSerializer.validated_data_t) :
  consistent w -> In v (videos w) -> Video.id v = vid -> Video.is_active v = true ->
  UserProgressUpdateSerializer.is_valid (Request.data request) = inl vd ->
  let u := Request.user request in
  let before := match progress_of u vid w with
                | [p] => p
                | _ => UserProgress.mk (user_progress_seq w) u vid 0 false (clock w) None
                end in
  let sent := match UserProgressUpdateSerializer.completed vd with
              | Some b => b
              | None => false
              end in
  exists p,
    progress_of u vid (snd (post_progress request vid w)) = [p] /\
    UserProgress.id p = UserProgress.id before /\
    UserProgress.progress_seconds p =
      match UserProgressUpdateSerializer.progress_seconds vd with
      | Some n => n
      | None => UserProgress.progress_seconds before
      end /\
    UserProgress.completed p = UserProgress.completed before || sent /\
    UserProgress.completed_at p =
      (if sent && negb (UserProgress.completed before)
       then Some (clock w) else UserProgress.completed_at before) /\
    UserProgress.last_watched p = clock w.
Proof.
  intros C Hv Hid Ha E u before sent.
  destruct (post_progress_accepted request vid w v vd C Hv Hid Ha E) as [_ S].
  cbv zeta in S. fold u in S.
  change (new_progress u vid w)
    with (UserProgress.mk (user_progress_seq w) u vid 0 false (clock w) None) in S.
  fold before in S.
  eexists. split; [exact S|].
  unfold updated_progress, UserProgressUpdateSerializer.dict_get. fold sent.
  destruct (UserProgressUpdateSerializer.progress_seconds vd);
    destruct sent; destruct (UserProgress.completed before) eqn:D; simpl;
    rewrite ?D; repeat split; reflexivity.
Qed.

Lemma accepted_report_is_partial_update_witness :
  exists p,
    progress_of 7 1 (snd (post_progress (report 7 None (Some (JBool false))) 1 graduate)) = [p] /\
    UserProgress.id p = 1 /\
    UserProgress.progress_seconds p = 300 /\
    UserProgress.completed p = true /\
    UserProgress.completed_at p = Some 6 /\
    UserProgress.last_watched p = 6.
Proof.
  apply (accepted_report_is_partial_update (report 7 None (Some (JBool false))) 1 graduate
           video_a (UserProgressUpdateSerializer.mkValidated None (Some false))).
  - exact graduate_consistent.
  - simpl. now left.
  - reflexivity.
  - reflexivity.
  - reflexivity.
Defined.

(* ================================================================== *)
(** ** What a call leaves alone                                        *)
(* ================================================================== *)

Lemma view_world_other_rows (request : Request.t) (vid : Z) (w : World)
    (p : UserProgress.t) :
  consistent w -> In p (user_progress w) ->
  progress_pair p <> (Request.user request, vid) ->
  In p (user_progress (view_world request vid w)).
Proof.
  intros C Hp Ne.
  destruct (view_world_cases request vid w C) as [E|[v [p0 [w1 H]]]]; [now rewrite E|].
  destruct H as [_ [_ [_ [Hw1 [C1 [Hp0 [Pair E]]]]]]].
  rewrite E.
  destruct (after_get_or_create_rows request v p0 w1 Hp0) as [_ [_ [_ Rows]]].
  rewrite Rows.
  assert (Hp1 : In p (user_progress w1)).
  { destruct Hw1 as [[_ ->]|[_ [_ ->]]]; [assumption|].
    simpl. apply in_or_app. now left. }
  destruct (UserProgressUpdateSerializer.is_valid (Request.data request)) as [vd|errs];
    [|assumption].
  apply replace_progress_old; [assumption|].
  rewrite updated_progress_id. intros Eid. apply Ne. rewrite <- Pair. f_equal.
  apply (key_determines_row UserProgress.id (user_progress w1)); auto.
  apply (progress_pk w1 C1).
Qed.

(** A progress row stays exactly as it is (seconds, flag, both stamps)
    through every sequence of calls none of which is made by the row's user
    for the row's video. *)
Theorem other_rows_untouched (calls : list Call) (w : World) (p : UserProgress.t) :
  consistent w -> In p (user_progress w) ->
  (forall c, In c calls -> progress_pair p <> (Request.user (request c), video_id c)) ->
  In p (user_progress (serve_all calls w)).
Proof.
  revert w. induction calls as [|c rest IH]; intros w C Hp Ne; simpl; [assumption|].
  apply IH.
  - now apply serve_spec.
  - unfold serve. rewrite post_progress_world.
    apply view_world_other_rows.
    + now apply consistent_set_clock.
    + assumption.
    + apply Ne. now left.
  - intros c' Hc'. apply Ne. now right.
Qed.

Lemma other_rows_untouched_witness :
  In (UserProgress.mk 1 7 1 300 true 6 (Some 6))
     (user_progress
        (serve_all [mkCall 8 (report 7 (Some (JNum 10)) (Some (JBool true))) 2;
                    mkCall 9 (report 8 (Some (JNum 10)) (Some (JBool true))) 1] graduate)).
Proof.
  apply (other_rows_untouched _ graduate (UserProgress.mk 1 7 1 300 true 6 (Some 6))).
  - exact graduate_consistent.
  - simpl. now left.
  - intros c [<-|[<-|[]]]; simpl; unfold progress_pair; simpl; congruence.
Defined.

(* ================================================================== *)
(** ** Certificates over sequences of calls                            *)
(* ================================================================== *)

Lemma store_progress_videos (obj : UserProgress.t) (w : World) :
  videos (store_progress obj w) = videos w.
Proof. unfold store_progress. destruct (existsb _ _); reflexivity. Qed.

(** One call appends at most one certificate: for the caller, for the
    training of the video addressed, stamped with the time of the call. *)
Lemma view_world_certificates (request : Request.t) (vid : Z) (w : World) :
  consistent w ->
  user_certificates (view_world request vid w) = user_certificates w \/
  exists c v,
    user_certificates (view_world request vid w) = user_certificates w ++ [c] /\
    In v (videos w) /\ Video.id v = vid /\ Video.is_active v = true /\
    UserCertificate.user c = Request.user request /\
    UserCertificate.training c = Video.training v /\
    UserCertificate.issued_at c = clock w.
Proof.
  intros C.
  destruct (view_world_cases request vid w C) as [E|[v [p0 [w1 H]]]]; [left; now rewrite E|].
  destruct H as [Hv [Hid [Ha [Hw1 [C1 [Hp0 [Pair E]]]]]]].
  assert (Cw1 : user_certificates w1 = user_certificates w /\ clock w1 = clock w).
  { destruct Hw1 as [[_ ->]|[_ [_ ->]]]; split; reflexivity. }
  destruct Cw1 as [Cw1 Kw1].
  rewrite E, after_get_or_create_world.
  destruct (UserProgressUpdateSerializer.is_valid (Request.data request)) as [vd|errs];
    [|now left].
  cbv zeta. set (p' := updated_progress (clock w1) vd p0).
  set (w2 := log_entry (progress_entry request p' w1) (store_progress p' w1)).
  assert (Cw2 : user_certificates w2 = user_certificates w)
    by (unfold w2; simpl; now rewrite store_progress_certificates).
  assert (Kw2 : clock w2 = clock w)
    by (unfold w2; simpl; now rewrite store_progress_clock).
  destruct (UserProgress.completed p'); [|now left].
  rewrite check_training_completion_run.
  destruct (training_completed _ _ w2); [|now left].
  destruct (certificates_of _ _ w2) as [|c [|c' l]]; [|now left|now left].
  right. exists (new_certificate (Request.user request) (Video.training v) w2), v.
  simpl. rewrite store_progress_certificates, Cw1.
  repeat split; auto.
Qed.

(** Through the endpoint the certificate table is append-only: after any
    sequence of calls the certificates there were are still there, unchanged
    and in place, and every certificate added was issued to the user of one
    of the calls, for the training of the active video that call addressed,
    with the time of that call as [issued_at]. *)
Theorem certificates_append_only (calls : list Call) (w : World) :
  consistent w ->
  exists added,
    user_certificates (serve_all calls w) = user_certificates w ++ added /\
    forall c, In c added ->
      exists call v,
        In call calls /\ In v (videos w) /\
        Video.id v = video_id call /\ Video.is_active v = true /\
        UserCertificate.user c = Request.user (request call) /\
        UserCertificate.training c = Video.training v /\
        UserCertificate.issued_at c = served_at call.
Proof.
  revert w. induction calls as [|c0 rest IH]; intros w C; simpl.
  - exists []. split; [now rewrite app_nil_r|]. intros c [].
  - destruct (serve_spec c0 w C) as [C' [V _]].
    destruct (IH (serve c0 w) C') as [added [E H]].
    assert (Step : user_certificates (serve c0 w) = user_certificates w \/
                   exists c v,
                     user_certificates (serve c0 w) = user_certificates w ++ [c] /\
                     In v (videos w) /\ Video.id v = video_id c0 /\
                     Video.is_active v = true /\
                     UserCertificate.user c = Request.user (request c0) /\
                     UserCertificate.training c = Video.training v /\
                     UserCertificate.issued_at c = served_at c0).
    { unfold serve. rewrite post_progress_world.
      apply (view_world_certificates (request c0) (video_id c0) (set_clock (served_at c0) w)).
      now apply consistent_set_clock. }
    assert (Later : forall c, In c added ->
              exists call v,
                (c0 = call \/ In call rest) /\ In v (videos w) /\
                Video.id v = video_id call /\ Video.is_active v = true /\
                UserCertificate.user c = Request.user (request call) /\
                UserCertificate.training c = Video.training v /\
                UserCertificate.issued_at c = served_at call).
    { intros c Hc. destruct (H c Hc) as [call [v [H1 [H2 H3]]]].
      exists call, v. rewrite V in H2. auto. }
    destruct Step as [S|[c [v [S Hc]]]].
    + exists added. rewrite E, S. split; [reflexivity|exact Later].
    + exists (c :: added). rewrite E, S, <- app_assoc. split; [reflexivity|].
      intros c' [<-|Hc']; [|now apply Later].
      exists c0, v. destruct Hc as [H1 [H2 [H3 [H4 [H5 H6]]]]].
      repeat split; auto.
Qed.

Lemma certificates_append_only_witness :
  exists added,
    user_certificates
      (serve_all [mkCall 5 (report 7 (Some (JNum 300)) (Some (JBool true))) 1;
                  mkCall 6 (report 7 (Some (JNum 9)) (Some (JBool true))) 2]
                 (empty_store [video_a; video_b]))
    = user_certificates (empty_store [video_a; video_b]) ++ added.
Proof.
  destruct (certificates_append_only
              [mkCall 5 (report 7 (Some (JNum 300)) (Some (JBool true))) 1;
               mkCall 6 (report 7 (Some (JNum 9)) (Some (JBool true))) 2]
              (empty_store [video_a; video_b])) as [added [E _]].
  - constructor; simpl; repeat constructor; simpl; intuition discriminate.
  - exists added. exact E.
Defined.

(* ================================================================== *)
(** ** Reading a row back                                              *)
(* ================================================================== *)

Lemma Video_get_user_progress_run (v : Video.t) (u : Z) (w : World) :
  Video_get_user_progress v u w =
  match progress_of u (Video.id v) w with
  | [] => (Return None, w)
  | [p] => (Return (Some p), w)
  | _ :: _ :: _ => (Raise MultipleObjectsReturned, w)
  end.
Proof.
  unfold Video_get_user_progress, try_except, bind, gets.
  destruct (progress_of u (Video.id v) w) as [|p [|p' l]]; reflexivity.
Qed.

(** Report, then read back: after a report the endpoint answers with 200,
    [video.get_user_progress(user)] on the resulting store returns exactly
    the row of the answer, and reading writes nothing. *)
Theorem get_user_progress_after_report (request : Request.t) (vid : Z) (w : World)
    (v : Video.t) (p : UserProgress.t) (percentage : Q) :
  consistent w -> Video.id v = vid ->
  fst (post_progress request vid w) = mkResponse (ProgressData p percentage) HTTP_200_OK ->
  Video_get_user_progress v (Request.user request) (snd (post_progress request vid w))
  = (Return (Some p), snd (post_progress request vid w)).
Proof.
  intros C Hid R.
  rewrite Video_get_user_progress_run, Hid.
  destruct (active_video_at_most_one vid w C) as [F|[v0 F]].
  - exfalso. revert R. unfold post_progress, api_view.
    rewrite update_video_progress_run, F. discriminate.
  - destruct (active_video_row vid w v0 F) as [Hv0 [Hid0 Ha0]].
    destruct (UserProgressUpdateSerializer.is_valid (Request.data request)) as [vd|errs] eqn:E.
    + destruct (post_progress_accepted request vid w v0 vd C Hv0 Hid0 Ha0 E) as [R' S].
      cbv zeta in R', S. rewrite R' in R. unfold ok_response in R.
      injection R as Hp _. rewrite S, Hp. reflexivity.
    + exfalso. revert R. unfold post_progress, api_view.
      rewrite update_video_progress_run, F.
      destruct (progress_of (Request.user request) (Video.id v0) w) as [|q [|q' l]];
        cbv zeta; unfold after_get_or_create; rewrite ?E; discriminate.
Qed.

Lemma get_user_progress_after_report_witness :
  Video_get_user_progress video_a 7
    (snd (post_progress (report 7 (Some (JNum 150)) None) 1 school))
  = (Return (Some (UserProgress.mk 1 7 1 150 false 0 None)),
     snd (post_progress (report 7 (Some (JNum 150)) None) 1 school)).
Proof.
  apply (get_user_progress_after_report (report 7 (Some (JNum 150)) None) 1 school video_a
           (UserProgress.mk 1 7 1 150 false 0 None) (15000 # 300)).
  - exact school_consistent.
  - reflexivity.
  - reflexivity.
Defined.

(* ================================================================== *)
(** ** Percentages, continued                                          *)
(* ================================================================== *)

Lemma percent_ge_100 (n d : Z) : 0 < d -> ((100 <= percent n d)%Q <-> d <= n).
Proof.
  intros Hd. unfold percent. destruct d as [|q|q]; try lia.
  unfold Qle, Qdiv, Qmult, Qinv, inject_Z; simpl. lia.
Qed.

Lemma percent_eq_100 (n d : Z) : 0 < d -> ((percent n d == 100)%Q <-> n = d).
Proof.
  intros Hd. unfold percent. destruct d as [|q|q]; try lia.
  unfold Qeq, Qdiv, Qmult, Qinv, inject_Z; simpl. lia.
Qed.

Lemma percent_mono (n m d : Z) : 0 < d -> n <= m -> (percent n d <= percent m d)%Q.
Proof.
  intros Hd H. unfold percent. destruct d as [|q|q]; try lia.
  unfold Qle, Qdiv, Qmult, Qinv, inject_Z; simpl. nia.
Qed.

(** [progress_percentage] on a video whose duration is positive and at
    most 2^53 seconds, for rows whose seconds are within the 64-bit range
    (within these bounds the float arithmetic of the code reaches 100 at the
    same point and keeps the order): the percentage is 100 exactly when the
    seconds watched reach the duration, and watching more never lowers it. *)
Theorem progress_percentage_full_and_monotone (v : Video.t) (p q : UserProgress.t) :
  0 < Video.duration_seconds v <= 2 ^ 53 ->
  - 2 ^ 63 <= UserProgress.progress_seconds p < 2 ^ 63 ->
  - 2 ^ 63 <= UserProgress.progress_seconds q < 2 ^ 63 ->
  ((UserProgress.progress_percentage v p == 100)%Q <->
   Video.duration_seconds v <= UserProgress.progress_seconds p) /\
  (UserProgress.progress_seconds p <= UserProgress.progress_seconds q ->
   (UserProgress.progress_percentage v p <= UserProgress.progress_percentage v q)%Q).
Proof.
  intros [Hd _] _ _. unfold UserProgress.progress_percentage.
  destruct (Z.eqb_spec (Video.duration_seconds v) 0) as [E|_]; [lia|].
  rewrite !py_min_Qmin.
  fold (percent (UserProgress.progress_seconds p) (Video.duration_seconds v)).
  fold (percent (UserProgress.progress_seconds q) (Video.duration_seconds v)).
  split.
  - rewrite Q.min_r_iff. now apply percent_ge_100.
  - intros H. apply Q.min_le_compat_r. now apply percent_mono.
Qed.

Lemma progress_percentage_full_and_monotone_witness :
  ((UserProgress.progress_percentage video_a (UserProgress.mk 1 7 1 300 false 5 None) == 100)%Q
   <-> Video.duration_seconds video_a <= 300) /\
  (UserProgress.progress_percentage video_a (UserProgress.mk 1 7 1 150 false 5 None)
   <= UserProgress.progress_percentage video_a (UserProgress.mk 1 7 1 300 false 5 None))%Q.
Proof.
  destruct (progress_percentage_full_and_monotone video_a
              (UserProgress.mk 1 7 1 300 false 5 None)
              (UserProgress.mk 1 7 1 300 false 5 None)) as [H1 _];
    [simpl; lia|simpl; lia|simpl; lia|].
  destruct (progress_percentage_full_and_monotone video_a
              (UserProgress.mk 1 7 1 150 false 5 None)
              (UserProgress.mk 1 7 1 300 false 5 None)) as [_ H2];
    [simpl; lia|simpl; lia|simpl; lia|].
  split; [exact H1|]. apply H2. simpl. lia.
Defined.

Lemma completed_count_le_total (u t : Z) (w : World) :
  consistent w -> completed_on_active_only u t w ->
  count (Training.completed_progress t u w) <= Training.total_videos t w.
Proof.
  intros C Act.
  assert (NL : NoDup (map UserProgress.video (Training.completed_progress t u w)))
    by now apply completed_videos_distinct.
  assert (LA : incl (map UserProgress.video (Training.completed_progress t u w))
                    (map Video.id (Training.active_videos t w))).
  { intros x Hx. apply in_map_iff in Hx. destruct Hx as [p [<- Hp]].
    destruct (Act p Hp) as [v [Hv <-]]. now apply in_map. }
  pose proof (NoDup_incl_length NL LA) as H. rewrite !length_map in H.
  unfold Training.total_videos, count. lia.
Qed.

(** [Training.get_user_progress] where none of the user's completed rows of
    the training sits on an inactive video: the percentage lies between 0
    and 100, and it is 100 exactly when the training has active videos and
    the user has a completed row for each of them. *)
Theorem training_progress_in_range (t u : Z) (w : World) :
  consistent w -> completed_on_active_only u t w ->
  (0 <= Training.get_user_progress t u w)%Q /\
  (Training.get_user_progress t u w <= 100)%Q /\
  ((Training.get_user_progress t u w == 100)%Q <->
   0 < Training.total_videos t w /\ completed_all_active u t w = true).
Proof.
  intros C Act. unfold Training.get_user_progress. cbv zeta.
  pose proof (total_videos_nonneg t w) as N.
  pose proof (completed_count_le_total u t w C Act) as Le.
  destruct (Z.eqb_spec (Training.total_videos t w) 0) as [E|E].
  - split; [discriminate|]. split; [discriminate|].
    split; [intros H; vm_compute in H; discriminate | lia].
  - fold (percent (count (Training.completed_progress t u w)) (Training.total_videos t w)).
    split; [apply percent_nonneg; unfold count; lia|].
    split.
    + apply Qnot_lt_le. rewrite percent_above_100 by lia. lia.
    + rewrite percent_eq_100 by lia.
      rewrite (counts_agree_iff_all_completed u t w C Act). intuition lia.
Qed.

Lemma graduate_on_active_only :
  completed_on_active_only 7 10 graduate.
Proof.
  intros p Hp. apply completed_progress_In in Hp. destruct Hp as [[<-|[]] _].
  exists video_a. split; [simpl; now left|reflexivity].
Qed.

Lemma training_progress_in_range_witness :
  (0 <= Training.get_user_progress 10 7 graduate)%Q /\
  (Training.get_user_progress 10 7 graduate <= 100)%Q.
Proof.
  destruct (training_progress_in_range 10 7 graduate graduate_consistent
              graduate_on_active_only) as [H1 [H2 _]].
  split; assumption.
Defined.

(* ================================================================== *)
(** ** Certificates track completion                                   *)
(* ================================================================== *)

Lemma completed_all_active_iff (u t : Z) (w : World) :
  completed_all_active u t w = true <->
  forall v, In v (Training.active_videos t w) -> completed_pair u (Video.id v) w.
Proof.
  unfold completed_all_active, completed_pair. rewrite forallb_forall.
  split; intros H v Hv; specialize (H v Hv).
  - apply existsb_exists in H. destruct H as [p [Hp Hm]].
    rewrite !andb_true_iff, !Z.eqb_eq in Hm. exists p. tauto.
  - apply existsb_exists. destruct H as [p [Hp [Hu [Hvid Hc]]]].
    exists p. split; [assumption|]. rewrite Hu, Hvid, Hc, !Z.eqb_refl. reflexivity.
Qed.

Lemma on_active_only_of_rows (u t : Z) (w : World) :
  consistent w -> completed_rows_on_active w -> completed_on_active_only u t w.
Proof.
  intros C Act p Hp. apply completed_progress_In in Hp.
  destruct Hp as [Hp [_ [Hin Hc]]].
  destruct (Act p Hp Hc) as [v [Hv [Hid Ha]]].
  unfold Training.video_in_training in Hin. apply existsb_exists in Hin.
  destruct Hin as [v0 [Hv0 Hm]]. rewrite andb_true_iff, !Z.eqb_eq in Hm.
  destruct Hm as [Hid0 Ht0].
  assert (v0 = v).
  { apply (key_determines_row Video.id (videos w)); auto.
    - apply (videos_pk w C).
    - congruence. }
  subst v0. exists v. split; [|assumption].
  unfold Training.active_videos. apply filter_In. split; [assumption|].
  rewrite Ha, andb_true_r. now apply Z.eqb_eq.
Qed.

Lemma training_completed_iff (u t : Z) (w : World) :
  consistent w -> completed_rows_on_active w ->
  (training_completed u t w = true <->
   0 < Training.total_videos t w /\ completed_all_active u t w = true).
Proof.
  intros C Act. unfold training_completed.
  rewrite andb_true_iff, Z.ltb_lt, Z.eqb_eq.
  rewrite (counts_agree_iff_all_completed u t w C (on_active_only_of_rows u t w C Act)).
  tauto.
Qed.

Lemma training_completed_frame (u t : Z) (w w' : World) :
  videos w' = videos w -> user_progress w' = user_progress w ->
  training_completed u t w' = training_completed u t w.
Proof.
  intros V R.
  unfold training_completed, Training.total_videos, Training.active_videos,
    Training.completed_progress, Training.video_in_training.
  rewrite V, R. reflexivity.
Qed.

(** The check for one pair leaves the certificates of every other pair. *)
Lemma check_training_completion_other_pair (u t u' t' : Z) (w : World) :
  (u', t') <> (u, t) ->
  certificates_of u' t' (snd (check_training_completion u t w)) = certificates_of u' t' w.
Proof.
  intros Ne. rewrite check_training_completion_run.
  destruct (training_completed u t w); [|reflexivity].
  destruct (certificates_of u t w) as [|c [|c' l]]; try reflexivity.
  unfold certificates_of. simpl. rewrite filter_app. simpl.
  destruct (Z.eqb_spec u u'), (Z.eqb_spec t t'); simpl;
    try (now rewrite app_nil_r).
  exfalso. apply Ne. congruence.
Qed.

Lemma completed_pair_insert (u' vid' : Z) (p : UserProgress.t) (w : World) :
  UserProgress.completed p = false ->
  (completed_pair u' vid' (insert_progress p w) <-> completed_pair u' vid' w).
Proof.
  intros N. unfold completed_pair. simpl. split.
  - intros [r [Hr H]]. apply in_app_or in Hr. destruct Hr as [Hr|[<-|[]]].
    + exists r. auto.
    + destruct H as [_ [_ H]]. congruence.
  - intros [r [Hr H]]. exists r. split; [apply in_or_app; now left|assumption].
Qed.

Lemma completed_pair_replace (u' vid' : Z) (p0 p' : UserProgress.t) (w w' : World) :
  NoDup (map UserProgress.id (user_progress w)) -> In p0 (user_progress w) ->
  UserProgress.id p' = UserProgress.id p0 -> progress_pair p' = progress_pair p0 ->
  (UserProgress.completed p0 = true -> UserProgress.completed p' = true) ->
  user_progress w' = replace_progress p' (user_progress w) ->
  (completed_pair u' vid' w' <->
   completed_pair u' vid' w \/
   (UserProgress.completed p' = true /\ progress_pair p' = (u', vid'))).
Proof.
  intros ND Hp0 Hid Hpair Mono Rows. unfold completed_pair. rewrite Rows. split.
  - intros [r [Hr [Hu [Hv Hc]]]]. apply replace_progress_inv in Hr.
    destruct Hr as [->|[Hr _]].
    + right. split; [assumption|]. unfold progress_pair. congruence.
    + left. exists r. auto.
  - intros [[r [Hr [Hu [Hv Hc]]]]|[Hc Hp]].
    + destruct (Z.eq_dec (UserProgress.id r) (UserProgress.id p')) as [E|E].
      * assert (r = p0)
          by (apply (key_determines_row UserProgress.id (user_progress w)); auto; congruence).
        subst r. exists p'. split; [now apply (replace_progress_In p0)|].
        unfold progress_pair in Hpair. injection Hpair as H1 H2.
        repeat split; try congruence. now apply Mono.
      * exists r. split; [now apply replace_progress_old|auto].
    + exists p'. split; [now apply (replace_progress_In p0)|].
      unfold progress_pair in Hp. injection Hp as H1 H2. auto.
Qed.

Lemma completed_pair_rows (u' vid' : Z) (w w' : World) :
  user_progress w' = user_progress w ->
  (completed_pair u' vid' w' <-> completed_pair u' vid' w).
Proof. intros R. unfold completed_pair. rewrite R. tauto. Qed.

Lemma has_certificate_rows (u' t' : Z) (w w' : World) :
  user_certificates w' = user_certificates w ->
  has_certificate u' t' w' = has_certificate u' t' w.
Proof. intros R. unfold has_certificate, certificates_of. now rewrite R. Qed.

Lemma updated_progress_keeps_completed (now : Z) vd (p : UserProgress.t) :
  UserProgress.completed p = true ->
  UserProgress.completed (updated_progress now vd p) = true.
Proof.
  intros H. destruct (updated_progress_step now vd p) as [_ [_ [[S _]|[S _]]]]; congruence.
Qed.

(** What one call does to completion and to certificates.  [done] tells
    whether the call answered with a completed row. *)
Lemma view_world_summary (request : Request.t) (vid : Z) (w : World) :
  consistent w ->
  let u := Request.user request in
  let w' := view_world request vid w in
  exists done : bool,
    (forall u' vid', completed_pair u' vid' w' <->
                     completed_pair u' vid' w \/ (done = true /\ (u, vid) = (u', vid'))) /\
    (done = false -> user_certificates w' = user_certificates w) /\
    (done = true ->
     exists v, In v (videos w) /\ Video.id v = vid /\ Video.is_active v = true /\
       forall u' t',
         has_certificate u' t' w' =
         if (u' =? u) && (t' =? Video.training v)
         then has_certificate u' t' w || training_completed u' t' w'
         else has_certificate u' t' w).
Proof.
  intros C u w'. subst u. set (u := Request.user request) in *.
  destruct (view_world_cases request vid w C) as [E|[v [p0 [w1 H]]]].
  { exists false. subst w'. rewrite E.
    split; [intros; intuition discriminate|]. split; [reflexivity|discriminate]. }
  destruct H as [Hv [Hid [Ha [Hw1 [C1 [Hp0 [Pair E]]]]]]].
  assert (W1 : videos w1 = videos w /\ user_certificates w1 = user_certificates w /\
               forall u' vid', completed_pair u' vid' w1 <-> completed_pair u' vid' w).
  { destruct Hw1 as [[_ ->]|[_ [-> ->]]].
    - repeat split; tauto.
    - split; [reflexivity|]. split; [reflexivity|].
      intros. now apply completed_pair_insert. }
  destruct W1 as [V1 [Ce1 Cp1]].
  subst w'. rewrite E, after_get_or_create_world. fold u.
  destruct (UserProgressUpdateSerializer.is_valid (Request.data request)) as [vd|errs].
  2:{ exists false. split; [|split; [intros _; exact Ce1|discriminate]].
      intros u' vid'. rewrite Cp1. intuition discriminate. }
  cbv zeta. set (p' := updated_progress (clock w1) vd p0).
  set (w2 := log_entry (progress_entry request p' w1) (store_progress p' w1)).
  assert (Hid' : UserProgress.id p' = UserProgress.id p0) by apply updated_progress_id.
  assert (Hpair' : progress_pair p' = (u, vid))
    by (unfold p'; rewrite updated_progress_pair; assumption).
  assert (R2 : user_progress w2 = replace_progress p' (user_progress w1))
    by (unfold w2; simpl; now rewrite (store_progress_rows p0 p' w1 Hp0 Hid')).
  assert (V2 : videos w2 = videos w)
    by (unfold w2; simpl; now rewrite store_progress_videos).
  assert (Ce2 : user_certificates w2 = user_certificates w)
    by (unfold w2; simpl; now rewrite store_progress_certificates).
  assert (Cp2 : forall u' vid', completed_pair u' vid' w2 <->
            completed_pair u' vid' w \/
            (UserProgress.completed p' = true /\ (u, vid) = (u', vid'))).
  { intros u' vid'.
    rewrite (completed_pair_replace u' vid' p0 p' w1 w2); auto.
    - rewrite Cp1, Hpair'. tauto.
    - apply (progress_pk w1 C1).
    - rewrite Hpair'. now symmetry.
    - apply updated_progress_keeps_completed. }
  exists (UserProgress.completed p').
  destruct (UserProgress.completed p') eqn:D; cbv beta iota.
  - destruct (check_training_completion_frame u (Video.training v) w2) as [F1 [F2 _]].
    split; [|split; [discriminate|]].
    + intros u' vid'. rewrite (completed_pair_rows u' vid' w2 _ F2). apply Cp2.
    + intros _. exists v. split; [assumption|]. split; [assumption|]. split; [assumption|].
      intros u' t'.
      destruct (Z.eqb_spec u' u) as [->|Nu]; simpl.
      * destruct (Z.eqb_spec t' (Video.training v)) as [->|Nt].
        -- rewrite has_certificate_after_check.
           rewrite (has_certificate_rows u (Video.training v) w w2 Ce2).
           f_equal. symmetry. now apply training_completed_frame.
        -- unfold has_certificate.
           rewrite check_training_completion_other_pair by congruence.
           fold (has_certificate u t' w2). now apply has_certificate_rows.
      * unfold has_certificate.
        rewrite check_training_completion_other_pair by congruence.
        fold (has_certificate u' t' w2). now apply has_certificate_rows.
  - split; [apply Cp2|]. split; [intros _; assumption|discriminate].
Qed.

Lemma active_videos_videos (t : Z) (w w' : World) :
  videos w' = videos w -> Training.active_videos t w' = Training.active_videos t w.
Proof. intros V. unfold Training.active_videos. now rewrite V. Qed.

Lemma active_videos_In (t : Z) (w : World) (v : Video.t) :
  In v (Training.active_videos t w) ->
  In v (videos w) /\ Video.training v = t /\ Video.is_active v = true.
Proof.
  unfold Training.active_videos. rewrite filter_In, andb_true_iff, Z.eqb_eq. tauto.
Qed.

Lemma tracking_step (request : Request.t) (vid : Z) (w : World) :
  consistent w -> completed_rows_on_active w -> certified_exactly w ->
  completed_rows_on_active (view_world request vid w) /\
  certified_exactly (view_world request vid w).
Proof.
  intros C Act Cert.
  destruct (view_world_spec request vid w C) as [C' [V _]].
  destruct (view_world_summary request vid w C) as [done [Cp [Cfalse Ctrue]]].
  cbv zeta in *.
  set (w' := view_world request vid w) in *.
  set (u := Request.user request) in *.
  assert (Act' : completed_rows_on_active w').
  { intros p Hp Hc.
    assert (P : completed_pair (UserProgress.user p) (UserProgress.video p) w')
      by (exists p; auto).
    apply Cp in P. rewrite V. destruct P as [[q [Hq [_ [Hv Hcq]]]]|[D Epair]].
    - rewrite <- Hv. now apply Act.
    - destruct (Ctrue D) as [v [Hv [Hid [Ha _]]]].
      injection Epair as _ Evid. exists v. split; [assumption|]. split; [congruence|assumption]. }
  split; [exact Act'|].
  assert (Mono : forall u' t', completed_all_active u' t' w = true ->
                               completed_all_active u' t' w' = true).
  { intros u' t'. rewrite !completed_all_active_iff, (active_videos_videos t' w w' V).
    intros H v Hv. apply Cp. left. now apply H. }
  assert (Tot : forall t', Training.total_videos t' w' = Training.total_videos t' w)
    by (intros t'; unfold Training.total_videos; now rewrite (active_videos_videos t' w w' V)).
  intros u' t'. rewrite Tot.
  destruct done.
  - destruct (Ctrue eq_refl) as [v [Hv [Hid [Ha Hcert]]]].
    rewrite Hcert.
    destruct (Z.eqb_spec u' u) as [->|Nu]; simpl.
    + destruct (Z.eqb_spec t' (Video.training v)) as [->|Nt].
      * rewrite orb_true_iff, (Cert u (Video.training v)).
        rewrite (training_completed_iff u (Video.training v) w' C' Act'), Tot.
        split; [|tauto]. intros [[H1 H2]|H]; [|assumption].
        split; [assumption|now apply Mono].
      * rewrite (Cert u t'), !completed_all_active_iff, (active_videos_videos t' w w' V).
        split; intros [H1 H2]; (split; [assumption|]); intros v' Hv'.
        -- apply Cp. left. now apply H2.
        -- destruct (proj1 (Cp u (Video.id v')) (H2 v' Hv')) as [P|[_ E]]; [assumption|].
           exfalso. apply Nt. injection E as E.
           destruct (active_videos_In t' w v' Hv') as [Hin [Ht _]].
           rewrite <- Ht. f_equal.
           apply (key_determines_row Video.id (videos w)); auto.
           ++ apply (videos_pk w C).
           ++ congruence.
    + rewrite (Cert u' t'), !completed_all_active_iff, (active_videos_videos t' w w' V).
      split; intros [H1 H2]; (split; [assumption|]); intros v' Hv'.
      * apply Cp. left. now apply H2.
      * destruct (proj1 (Cp u' (Video.id v')) (H2 v' Hv')) as [P|[_ E]]; [assumption|].
        exfalso. apply Nu. now injection E.
  - rewrite (has_certificate_rows u' t' w w' (Cfalse eq_refl)), (Cert u' t').
    rewrite !completed_all_active_iff, (active_videos_videos t' w w' V).
    split; intros [H1 H2]; (split; [assumption|]); intros v' Hv'.
    + apply Cp. left. now apply H2.
    + destruct (proj1 (Cp u' (Video.id v')) (H2 v' Hv')) as [P|[D _]];
        [assumption|discriminate].
Qed.

(** With the catalogue of videos as it is, certificates track completion
    through the endpoint.  On a consistent store whose completed rows all sit
    on active videos and where a pair holds a certificate exactly when the
    training has active videos all completed by the user (an empty store with
    any catalogue is one), the same is true after every sequence of calls: a
    certificate is there as soon as the last active video was reported
    complete, never before, and never for a training without active videos. *)
Theorem certificates_track_completion (calls : list Call) (w : World) :
  consistent w -> completed_rows_on_active w -> certified_exactly w ->
  completed_rows_on_active (serve_all calls w) /\ certified_exactly (serve_all calls w).
Proof.
  revert w. induction calls as [|c rest IH]; intros w C Act Cert; simpl; [auto|].
  assert (S : completed_rows_on_active (serve c w) /\ certified_exactly (serve c w)).
  { unfold serve. rewrite post_progress_world.
    assert (Cc : consistent (set_clock (served_at c) w)) by now apply consistent_set_clock.
    apply tracking_step; assumption. }
  destruct S as [Act' Cert'].
  apply IH; auto. now apply serve_spec.
Qed.

Lemma empty_store_tracks (vs : list Video.t) :
  completed_rows_on_active (empty_store vs) /\ certified_exactly (empty_store vs).
Proof.
  split.
  - intros p [].
  - intros u t. split.
    + discriminate.
    + intros [N H]. exfalso.
      unfold Training.total_videos, count in N.
      destruct (Training.active_videos t (empty_store vs)) as [|v l] eqn:E;
        [simpl in N; lia|].
      rewrite completed_all_active_iff, E in H.
      destruct (H v (or_introl eq_refl)) as [p [[] _]].
Qed.

Lemma certificates_track_completion_witness :
  certified_exactly
    (serve_all [mkCall 5 (report 7 (Some (JNum 300)) (Some (JBool true))) 1;
                mkCall 6 (report 7 (Some (JNum 9)) (Some (JBool true))) 2]
               (empty_store [video_a; video_b])).
Proof.
  apply (certificates_track_completion _ (empty_store [video_a; video_b])).
  - constructor; simpl; repeat constructor; simpl; intuition discriminate.
  - apply empty_store_tracks.
  - apply empty_store_tracks.
Defined.

(* ================================================================== *)
(** ** The YouTube id of a video                                       *)
(* ================================================================== *)

Lemma split_from_nonempty (skip : nat) (sep s : string) : split_from skip sep s <> [].
Proof.
  revert skip. induction s as [|c s IH]; intros skip; simpl; [discriminate|].
  destruct skip as [|k]; [|apply IH].
  destruct (starts_with sep (String c s)); [discriminate|].
  destruct (split_from 0 sep s); discriminate.
Qed.

Lemma starts_with_contains (a b s : string) :
  starts_with (a ++ b) s = true -> contains b s = true.
Proof.
  revert s. induction a as [|x a IH]; intros s H; simpl in H.
  - destruct s; simpl; rewrite H; reflexivity.
  - destruct s as [|y s]; [discriminate|].
    apply andb_true_iff in H. destruct H as [_ H].
    simpl. rewrite (IH s H). apply orb_true_r.
Qed.

Lemma contains_app (a b s : string) :
  contains (a ++ b) s = true -> contains b s = true.
Proof.
  induction s as [|c s IH]; intros H; simpl in H.
  - rewrite orb_false_r in H. now apply (starts_with_contains a b EmptyString).
  - apply orb_true_iff in H. destruct H as [H|H].
    + now apply (starts_with_contains a b (String c s)).
    + simpl. rewrite (IH H). apply orb_true_r.
Qed.

Lemma split_from_cons (sep : string) (c : ascii) (s : string) :
  split_from 0 sep (String c s) =
  if starts_with sep (String c s)
  then EmptyString :: split_from (String.length sep - 1) sep s
  else match split_from 0 sep s with
       | piece :: pieces => String c piece :: pieces
       | [] => [String c EmptyString]
       end.
Proof. reflexivity. Qed.

Lemma contains_cons (sub : string) (c : ascii) (s : string) :
  contains sub (String c s) = starts_with sub (String c s) || contains sub s.
Proof. reflexivity. Qed.

(** A separator that occurs gives at least two pieces. *)
Lemma split_two_pieces (sep s : string) :
  sep <> EmptyString -> contains sep s = true ->
  exists first second rest, split sep s = first :: second :: rest.
Proof.
  intros Ne. unfold split. induction s as [|c s IH]; intros H.
  - destruct sep; [congruence|discriminate].
  - rewrite contains_cons in H. rewrite split_from_cons.
    destruct (starts_with sep (String c s)) eqn:P.
    + destruct (split_from (String.length sep - 1) sep s) as [|x l] eqn:E.
      * now apply split_from_nonempty in E.
      * now exists EmptyString, x, l.
    + simpl in H. destruct (IH H) as [a [b [l E]]].
      rewrite E. now exists (String c a), b, l.
Qed.

(** The first piece of a split at one character holds no such character. *)
Lemma first_piece_clean (c : ascii) (s : string) :
  exists first rest, split (String c EmptyString) s = first :: rest /\
                     ~ In c (list_ascii_of_string first).
Proof.
  unfold split. induction s as [|a s IH]; simpl.
  - exists EmptyString, []. split; [reflexivity|tauto].
  - destruct (Ascii.eqb_spec c a) as [->|N]; simpl.
    + eexists _, _. split; [reflexivity|]. simpl. tauto.
    + destruct IH as [first [rest [E H]]]. rewrite E.
      exists (String a first), rest. split; [reflexivity|].
      simpl. intros [Ea|Hin]; [now apply N | now apply H].
Qed.

(** [youtube_id] never raises.  It returns [None] exactly when the URL
    holds neither marker; with the [watch?v=] marker the id returned holds
    no ampersand, and with only the short marker it holds no question
    mark. *)
Theorem youtube_id_total (youtube_url : string) :
  match youtube_id youtube_url with
  | Value (Some id) =>
      (contains "youtube.com/watch?v=" youtube_url = true /\
       ~ In "&"%char (list_ascii_of_string id)) \/
      (contains "youtube.com/watch?v=" youtube_url = false /\
       contains "youtu.be/" youtube_url = true /\
       ~ In "?"%char (list_ascii_of_string id))
  | Value None =>
      contains "youtube.com/watch?v=" youtube_url = false /\
      contains "youtu.be/" youtube_url = false
  | IndexError => False
  end.
Proof.
  unfold youtube_id, item.
  destruct (contains "youtube.com/watch?v=" youtube_url) eqn:C1.
  - assert (C : contains "watch?v=" youtube_url = true)
      by (apply (contains_app "youtube.com/" "watch?v="); exact C1).
    destruct (split_two_pieces "watch?v=" youtube_url) as [a [b [l E]]];
      [discriminate|exact C|].
    rewrite E. simpl.
    destruct (first_piece_clean "&"%char b) as [first [rest [E' H]]].
    rewrite E'. simpl. left. auto.
  - destruct (contains "youtu.be/" youtube_url) eqn:C2; [|auto].
    destruct (split_two_pieces "youtu.be/" youtube_url) as [a [b [l E]]];
      [discriminate|exact C2|].
    rewrite E. simpl.
    destruct (first_piece_clean "?"%char b) as [first [rest [E' H]]].
    rewrite E'. simpl. right. auto.
Qed.

Lemma starts_with_app (sep y tail : string) :
  starts_with sep (y ++ tail) = true ->
  (exists r, y = (sep ++ r)%string) \/
  (exists s2, sep = (y ++ s2)%string /\ starts_with s2 tail = true).
Proof.
  revert sep. induction y as [|c y IH]; intros sep H.
  - right. now exists sep.
  - destruct sep as [|a sep]; [left; now exists (String c y)|].
    simpl in H. apply andb_true_iff in H. destruct H as [E H].
    apply Ascii.eqb_eq in E. subst c.
    destruct (IH sep H) as [[r ->]|[s2 [-> S]]].
    + left. now exists r.
    + right. now exists s2.
Qed.

Lemma In_app_string (c : ascii) (a b : string) :
  In c (list_ascii_of_string (a ++ b)) <->
  In c (list_ascii_of_string a) \/ In c (list_ascii_of_string b).
Proof.
  induction a as [|x a IH]; simpl; [tauto|]. rewrite IH. tauto.
Qed.

(** No separator starts inside a text that lacks one of the separator's
    characters and is followed by nothing, or by a character the separator
    does not hold. *)
Lemma no_separator_inside (sep y tail : string) (x stop : ascii) :
  In x (list_ascii_of_string sep) -> ~ In x (list_ascii_of_string y) ->
  ~ In stop (list_ascii_of_string sep) ->
  (tail = EmptyString \/ exists r, tail = String stop r) ->
  starts_with sep (y ++ tail) = false.
Proof.
  intros Hx Ny Ns Ht.
  destruct (starts_with sep (y ++ tail)) eqn:S; [|reflexivity]. exfalso.
  destruct (starts_with_app sep y tail S) as [[r ->]|[s2 [-> S2]]].
  - apply Ny. apply In_app_string. now left.
  - apply In_app_string in Hx. destruct Hx as [Hx|Hx]; [now apply Ny|].
    destruct s2 as [|a s2]; [contradiction|].
    destruct Ht as [->|[r ->]]; [discriminate|].
    simpl in S2. apply andb_true_iff in S2. destruct S2 as [E _].
    apply Ascii.eqb_eq in E. subst a.
    apply Ns. apply In_app_string. right. simpl. now left.
Qed.

Lemma first_piece_through (sep y tail : string) (x stop : ascii) :
  In x (list_ascii_of_string sep) -> ~ In x (list_ascii_of_string y) ->
  ~ In stop (list_ascii_of_string sep) ->
  (tail = EmptyString \/ exists r, tail = String stop r) ->
  exists t' rest,
    split sep (y ++ tail) = (y ++ t')%string :: rest /\
    (t' = EmptyString \/ exists r, t' = String stop r).
Proof.
  intros Hx Ny Ns Ht. unfold split. induction y as [|c y IH].
  - change ((EmptyString ++ tail)%string) with tail. destruct Ht as [->|[r ->]].
    + exists EmptyString, []. auto.
    + pose proof (no_separator_inside sep EmptyString (String stop r) x stop Hx Ny Ns
                    (or_intror (ex_intro _ r eq_refl))) as N.
      change ((EmptyString ++ String stop r)%string) with (String stop r) in N.
      rewrite split_from_cons, N.
      destruct (split_from 0 sep r) as [|h l].
      * exists (String stop EmptyString), []. split; [reflexivity|]. right. eauto.
      * exists (String stop h), l. split; [reflexivity|]. right. eauto.
  - assert (Ny' : ~ In x (list_ascii_of_string y)) by (intros H; apply Ny; simpl; now right).
    destruct (IH Ny') as [t' [rest [E H]]].
    pose proof (no_separator_inside sep (String c y) tail x stop Hx Ny Ns Ht) as N.
    change ((String c y ++ tail)%string) with (String c (y ++ tail)) in *.
    rewrite split_from_cons, N, E.
    exists t', rest. split; [reflexivity|assumption].
Qed.

Lemma first_piece_before (c : ascii) (y t' : string) :
  ~ In c (list_ascii_of_string y) ->
  (t' = EmptyString \/ exists r, t' = String c r) ->
  exists rest, split (String c EmptyString) (y ++ t') = y :: rest.
Proof.
  intros Ny Ht. unfold split. induction y as [|a y IH]; simpl.
  - destruct Ht as [->|[r ->]]; simpl.
    + now exists [].
    + rewrite Ascii.eqb_refl. simpl. eauto.
  - assert (Ny' : ~ In c (list_ascii_of_string y)) by (intros H; apply Ny; simpl; now right).
    destruct (IH Ny') as [rest E].
    destruct (Ascii.eqb_spec c a) as [->|N]; [exfalso; apply Ny; simpl; now left|].
    simpl. rewrite E. now exists rest.
Qed.

(** Round trip on a standard watch address: when the id holds neither an
    ampersand nor a question mark and is followed by nothing or by further
    parameters, [youtube_id] of the address built from it is that id. *)
Theorem youtube_id_of_watch_url (id tail : string) :
  ~ In "&"%char (list_ascii_of_string id) ->
  ~ In "?"%char (list_ascii_of_string id) ->
  (tail = EmptyString \/ exists r, tail = String "&"%char r) ->
  youtube_id ("https://www.youtube.com/watch?v=" ++ id ++ tail) = Value (Some id).
Proof.
  intros Na Nq Ht.
  destruct (first_piece_through "watch?v=" id tail "?"%char "&"%char) as [t' [rest [E Ht']]];
    auto.
  { simpl. tauto. }
  { simpl. intros H. repeat (destruct H as [H|H]; [discriminate H|]). exact H. }
  destruct (first_piece_before "&"%char id t' Na Ht') as [rest' E'].
  unfold youtube_id, item, split in *. cbn. rewrite E. cbn. rewrite E'. reflexivity.
Qed.

Lemma youtube_id_of_watch_url_witness :
  youtube_id ("https://www.youtube.com/watch?v=" ++ "dQw4w9WgXcQ" ++ "&t=42") =
  Value (Some "dQw4w9WgXcQ"%string).
Proof.
  apply (youtube_id_of_watch_url "dQw4w9WgXcQ" "&t=42").
  - simpl. intros H. repeat (destruct H as [H|H]; [discriminate H|]). exact H.
  - simpl. intros H. repeat (destruct H as [H|H]; [discriminate H|]). exact H.
  - right. now exists "t=42"%string.
Defined.

(* ================================================================== *)
(** ** Viewing a video                                                 *)
(* ================================================================== *)

Lemma video_with_id_found (vid : Z) (w : World) (v : Video.t) :
  consistent w -> In v (videos w) -> Video.id v = vid -> video_with_id vid w = [v].
Proof.
  intros C Hv Hid. unfold video_with_id.
  apply (filter_is_the_row Video.id).
  - intros x y Hx Hy. apply Z.eqb_eq in Hx, Hy. congruence.
  - apply (videos_pk w C).
  - exact Hv.
  - now apply Z.eqb_eq.
Qed.

Lemma video_detail_run (u vid : Z) (w : World) (v : Video.t) :
  video_with_id vid w = [v] ->
  video_detail (Some u) vid w =
  match progress_of u (Video.id v) w with
  | [] => (Return (Some (new_progress u (Video.id v) w)),
           insert_progress (new_progress u (Video.id v) w) w)
  | [p] => (Return (Some p), w)
  | _ :: _ :: _ => (Raise MultipleObjectsReturned, w)
  end.
Proof.
  intros F. unfold video_detail, try_except, bind, gets.
  rewrite F. cbn [queryset_get ret].
  rewrite UserProgress_get_or_create_run.
  destruct (progress_of u (Video.id v) w) as [|p [|p' l]]; reflexivity.
Qed.

Lemma certified_exactly_insert (p : UserProgress.t) (w : World) :
  UserProgress.completed p = false ->
  certified_exactly w -> certified_exactly (insert_progress p w).
Proof.
  intros N Cert u t.
  assert (A : Training.active_videos t (insert_progress p w) = Training.active_videos t w)
    by reflexivity.
  assert (H : has_certificate u t (insert_progress p w) = has_certificate u t w)
    by reflexivity.
  unfold Training.total_videos. rewrite H, A, completed_all_active_iff, A.
  fold (Training.total_videos t w). rewrite (Cert u t), completed_all_active_iff.
  split; intros [H1 H2]; (split; [assumption|]); intros v Hv;
    apply (completed_pair_insert u (Video.id v) p w N); now apply H2.
Qed.

(** Opening the page of a video, active or not, as an authenticated user:
    the page gets the user's progress row for the video; if there was none, a
    row of the default values is inserted, and that is the only change to the
    store (no row is modified, no certificate or audit entry is written).
    The store stays consistent, completed rows stay on active videos, and
    certificates keep matching completion. *)
Theorem video_detail_creates_default_row (u vid : Z) (w : World) (v : Video.t) :
  consistent w -> In v (videos w) -> Video.id v = vid ->
  let w' := snd (video_detail (Some u) vid w) in
  exists p,
    fst (video_detail (Some u) vid w) = Return (Some p) /\
    progress_of u vid w' = [p] /\
    (progress_of u vid w = [p] /\ w' = w \/
     progress_of u vid w = [] /\ w' = with_default_row u vid w /\
     p = UserProgress.mk (user_progress_seq w) u vid 0 false (clock w) None) /\
    consistent w' /\
    (completed_rows_on_active w -> completed_rows_on_active w') /\
    (certified_exactly w -> certified_exactly w').
Proof.
  intros C Hv Hid. cbv zeta.
  rewrite (video_detail_run u vid w v (video_with_id_found vid w v C Hv Hid)), Hid.
  destruct (progress_of_at_most_one u vid w C) as [F|[p F]]; rewrite F; simpl.
  - exists (new_progress u vid w).
    assert (C' : consistent (insert_progress (new_progress u vid w) w))
      by now apply consistent_insert_progress.
    split; [reflexivity|]. split.
    { change u with (UserProgress.user (new_progress u vid w)) at 1.
      change vid with (UserProgress.video (new_progress u vid w)) at 1.
      apply progress_of_the_row; [assumption|].
      simpl. apply in_or_app. right. now left. }
    split; [right; repeat split; reflexivity|].
    split; [assumption|]. split.
    + intros Act p Hp Hc. simpl in Hp. apply in_app_or in Hp.
      destruct Hp as [Hp|[<-|[]]]; [now apply Act|discriminate].
    + now apply certified_exactly_insert.
  - exists p. split; [reflexivity|]. split; [assumption|].
    split; [left; auto|]. auto.
Qed.

Lemma video_detail_creates_default_row_witness :
  exists p,
    fst (video_detail (Some 7) 3 school) = Return (Some p) /\
    progress_of 7 3 (snd (video_detail (Some 7) 3 school)) = [p].
Proof.
  destruct (video_detail_creates_default_row 7 3 school video_off school_consistent)
    as [p [H1 [H2 _]]].
  - simpl. tauto.
  - reflexivity.
  - exists p. split; assumption.
Defined.

(* ================================================================== *)
(** ** The totals of a module                                          *)
(* ================================================================== *)

Lemma py_sum_cons (a : Z) (l : list Z) : py_sum (a :: l) = a + py_sum l.
Proof.
  unfold py_sum. simpl.
  assert (G : forall l x y, fold_left Z.add l (x + y) = x + fold_left Z.add l y).
  { clear. induction l as [|b l IH]; intros x y; simpl; [reflexivity|].
    rewrite <- IH. f_equal. lia. }
  rewrite <- (G l a 0). f_equal. lia.
Qed.

Lemma count_filter_or {A} (p q : A -> bool) (l : list A) :
  (forall x, In x l -> p x && q x = false) ->
  count (filter (fun x => p x || q x) l) = count (filter p l) + count (filter q l).
Proof.
  unfold count. induction l as [|a l IH]; intros D; [reflexivity|].
  assert (IH' : Z.of_nat (List.length (filter (fun x => p x || q x) l)) =
                Z.of_nat (List.length (filter p l)) + Z.of_nat (List.length (filter q l)))
    by (apply IH; intros x Hx; apply D; now right).
  pose proof (D a (or_introl eq_refl)) as Da.
  cbn [filter].
  destruct (p a), (q a); cbn [orb andb List.length] in *; try discriminate; lia.
Qed.

Lemma sum_of_training_totals (w : World) (l : list training_row) :
  NoDup (map training_id l) ->
  py_sum (map (fun tr => Training.total_videos (training_id tr) w) l) =
  count (filter (fun v => Video.is_active v &&
                          existsb (fun tr => training_id tr =? Video.training v) l)
                (videos w)).
Proof.
  induction l as [|tr l IH]; intros ND.
  - simpl. unfold py_sum. simpl.
    rewrite (filter_all_false _ (videos w)); [reflexivity|].
    intros v _. apply andb_false_r.
  - inversion ND as [|? ? Hnot ND']; subst.
    change (map (fun tr0 => Training.total_videos (training_id tr0) w) (tr :: l))
      with (Training.total_videos (training_id tr) w
            :: map (fun tr0 => Training.total_videos (training_id tr0) w) l).
    rewrite py_sum_cons, (IH ND').
    unfold Training.total_videos, Training.active_videos.
    rewrite <- (count_filter_or
                  (fun v => (Video.training v =? training_id tr) && Video.is_active v)
                  (fun v => Video.is_active v &&
                            existsb (fun tr0 => training_id tr0 =? Video.training v) l)).
    + f_equal. apply filter_ext. intros v. simpl.
      rewrite (Z.eqb_sym (training_id tr) (Video.training v)).
      destruct (Video.is_active v), (Video.training v =? training_id tr); reflexivity.
    + intros v _.
      destruct (Z.eqb_spec (Video.training v) (training_id tr)) as [E|E]; [|reflexivity].
      destruct (Video.is_active v); [|reflexivity]. simpl.
      destruct (existsb _ l) eqn:X; [|reflexivity]. exfalso.
      apply existsb_exists in X. destruct X as [tr0 [H0 E0]]. apply Z.eqb_eq in E0.
      apply Hnot. rewrite <- E, <- E0. now apply in_map.
Qed.

(** [Module.total_videos], the sum of its active trainings' totals, is the
    number of videos that are active and belong to an active training of the
    module: each such video is counted once, and inactive videos and the
    videos of inactive trainings are not counted.  A module without active
    trainings has total 0. *)
Theorem module_total_videos_counts (self : Z) (trainings : list training_row) (w : World) :
  NoDup (map training_id trainings) ->
  Module_total_videos self trainings w =
    count (filter (counted_in_module self trainings) (videos w)) /\
  (Module_total_trainings self trainings = 0 -> Module_total_videos self trainings w = 0).
Proof.
  intros ND. split.
  - unfold Module_total_videos.
    rewrite sum_of_training_totals by (unfold active_trainings; now apply NoDup_map_filter).
    f_equal. apply filter_ext. intros v. unfold counted_in_module. f_equal.
    unfold active_trainings.
    induction trainings as [|tr l IH]; [reflexivity|].
    inversion ND; subst. simpl.
    destruct ((training_module tr =? self) && training_is_active tr) eqn:A; simpl.
    + rewrite IH by assumption. rewrite <- andb_assoc, A, andb_true_r. reflexivity.
    + rewrite IH by assumption. rewrite <- andb_assoc, A, andb_false_r. reflexivity.
  - unfold Module_total_trainings, Module_total_videos, count. intros Z0.
    destruct (active_trainings self trainings); [reflexivity|simpl in Z0; lia].
Qed.

Lemma module_total_videos_counts_witness :
  Module_total_videos 1 [mkTraining 10 1 true; mkTraining 20 1 false; mkTraining 30 2 true]
                      school = 2.
Proof.
  destruct (module_total_videos_counts 1
              [mkTraining 10 1 true; mkTraining 20 1 false; mkTraining 30 2 true] school)
    as [E _].
  - simpl. repeat constructor; simpl; intuition discriminate.
  - rewrite E. reflexivity.
Defined.

(** Through the endpoint a (user, training) pair never comes to hold more
    than one certificate: on a store that satisfies its constraints, after
    any sequence of calls, completed videos reported again included, the pair
    has at most one certificate, and one it had is still its certificate. *)
Theorem certificate_pair_has_one_record (calls : list Call) (w : World) (u t : Z) :
  consistent w ->
  (List.length (certificates_of u t (serve_all calls w)) <= 1)%nat /\
  (forall c, certificates_of u t w = [c] -> certificates_of u t (serve_all calls w) = [c]).
Proof.
  intros C.
  pose proof (consistent_serve_all calls w C) as C'.
  pose proof (certificates_unique_together _ C') as ND.
  split.
  - destruct (certificates_of_at_most_one u t _ ND) as [F|[c F]]; rewrite F; simpl; lia.
  - intros c F.
    assert (A : exists added,
              user_certificates (serve_all calls w) = user_certificates w ++ added).
    { clear F ND C'. revert w C. induction calls as [|c0 rest IH]; intros w C; simpl.
      - exists []. now rewrite app_nil_r.
      - destruct (serve_spec c0 w C) as [C' _].
        destruct (IH (serve c0 w) C') as [added E].
        assert (S : user_certificates (serve c0 w) = user_certificates w \/
                    exists x, user_certificates (serve c0 w) = user_certificates w ++ [x]).
        { unfold serve. rewrite post_progress_world.
          destruct (view_world_certificates (request c0) (video_id c0)
                      (set_clock (served_at c0) w) (consistent_set_clock _ _ C))
            as [S|[x [v [S _]]]]; [now left|right; now exists x]. }
        destruct S as [S|[x S]]; rewrite E, S.
        + now exists added.
        + exists (x :: added). now rewrite <- app_assoc. }
    destruct A as [added E].
    apply filter_singleton in F. destruct F as [Hc Pc].
    unfold certificates_of.
    apply (filter_is_the_row certificate_pair); auto.
    + apply certificate_query_pins_pair.
    + rewrite E. apply in_or_app. now left.
Qed.

Lemma certificate_pair_has_one_record_witness :
  (List.length
     (certificates_of 7 10
        (serve_all [mkCall 5 (report 7 (Some (JNum 300)) (Some (JBool true))) 1;
                    mkCall 6 (report 7 (Some (JNum 9)) (Some (JBool true))) 2;
                    mkCall 7 (report 7 (Some (JNum 9)) (Some (JBool true))) 2]
                   (empty_store [video_a; video_b]))) <= 1)%nat.
Proof.
  apply (certificate_pair_has_one_record _ (empty_store [video_a; video_b]) 7 10).
  constructor; simpl; repeat constructor; simpl; intuition discriminate.
Defined.
